(** * gamescope: the vblank predictor and the frame-rate limiter

    A shallow embedding of [src/vblankmanager.cpp].  Machine integers are
    integers of [Z] with the wrap-around of the C++ types written out:
    [uint64_t] values live in [0, 2^64) and every [+], [-] and [*] on them is
    reduced modulo [2^64]; [int] values live in [-2^31, 2^31) and a division
    or remainder whose result is not defined by the language is reported as
    [Undefined].  The clock, the precise sleep, the pipe and the calls into
    steamcompmgr are outside the file: clock readings are inputs of the
    model and the outgoing calls are recorded as events. *)

From Stdlib Require Import ZArith List Bool Lia Sorted.
Import ListNotations.
Local Open Scope Z_scope.

(** ** Outcomes of running a fragment of the program *)

Inductive outcome (A : Type) : Type :=
| Done (a : A)        (* the fragment ran to its end *)
| Undefined           (* the language gives the fragment no meaning *)
| OutOfFuel.          (* a loop was cut off by the model's fuel *)

Arguments Done {A} a.
Arguments Undefined {A}.
Arguments OutOfFuel {A}.

Definition bind {A B : Type} (m : outcome A) (k : A -> outcome B) : outcome B :=
  match m with
  | Done a => k a
  | Undefined => Undefined
  | OutOfFuel => OutOfFuel
  end.

Notation "x <- m ;; k" := (bind m (fun x => k))
  (at level 61, m at next level, right associativity).

(** ** [uint64_t] *)

Module U64.

Definition modulus : Z := 2 ^ 64.

Definition in_range (x : Z) : Prop := 0 <= x < modulus.

Definition wrap (x : Z) : Z := x mod modulus.

Definition add (a b : Z) : Z := wrap (a + b).
Definition sub (a b : Z) : Z := wrap (a - b).
Definition mul (a b : Z) : Z := wrap (a * b).

(** Division by zero has no meaning. *)
Definition div (a b : Z) : outcome Z :=
  if b =? 0 then Undefined else Done (a / b).

(** The conversion of an [int] operand to [unsigned long]. *)
Definition of_int (n : Z) : Z := wrap n.

End U64.

(** ** [int] *)

Module CInt.

Definition int_min : Z := - 2 ^ 31.
Definition int_max : Z := 2 ^ 31 - 1.

Definition in_range (x : Z) : Prop := int_min <= x <= int_max.

(** [a / b] and [a % b] truncate towards zero; both are undefined for a
    zero divisor and for [INT_MIN / -1], whose quotient does not fit. *)
Definition defined (a b : Z) : bool :=
  negb (b =? 0) && negb ((a =? int_min) && (b =? -1)).

Definition quot (a b : Z) : outcome Z :=
  if defined a b then Done (Z.quot a b) else Undefined.

Definition rem (a b : Z) : outcome Z :=
  if defined a b then Done (Z.rem a b) else Undefined.

(** The conversion of an [int] to [bool]. *)
Definition to_bool (x : Z) : bool := negb (x =? 0).

End CInt.

(** ** The frame-callback decision

    [g_nOutputRefresh] is a global of main.hpp; it is an argument here. *)

Definition fpslimit_use_frame_callbacks_for_focus_window
    (g_nOutputRefresh nTargetFPS nVBlankCount : Z) : outcome bool :=
  if nTargetFPS =? 0 then Done true
  else
    r <- CInt.rem g_nOutputRefresh nTargetFPS ;;
    if r =? 0 then
      (* Aligned, limit based on vblank count. *)
      q <- CInt.quot g_nOutputRefresh nTargetFPS ;;
      m <- CInt.rem nVBlankCount q ;;
      Done (CInt.to_bool m)
    else
      (* Unaligned from VBlank. *)
      Done false.

(** What the limiter loop wants from the call: is the target an exact
    divisor of the refresh rate? *)
Definition aligned (g_nOutputRefresh nTargetFPS : Z) : Prop :=
  Z.rem g_nOutputRefresh nTargetFPS = 0.

(** ** The catch-up loop shared by both threads

    [while ( targetPoint < now ) targetPoint += interval;] *)

Fixpoint advance (fuel : nat) (interval now targetPoint : Z) : outcome Z :=
  if targetPoint <? now then
    match fuel with
    | O => OutOfFuel
    | S fuel' => advance fuel' interval now (U64.add targetPoint interval)
    end
  else Done targetPoint.

(** ** The vblank predictor *)

Module Predictor.

(* 3ms by default *)
Definition g_uStartingDrawTime : Z := 3000000.

Definition g_uVBlankRateOfDecayMax : Z := 100.

Inductive event : Type :=
| SleepUntil (nanos : Z)
| PipeWrite (vblanktime : Z)
| PipeWriteFailed
| SleepFor (nanos : Z).

(** [g_nNestedRefresh ? g_nNestedRefresh : g_nOutputRefresh] *)
Definition select_refresh (g_nNestedRefresh g_nOutputRefresh : Z) : Z :=
  if g_nNestedRefresh =? 0 then g_nOutputRefresh else g_nNestedRefresh.

(** [1'000'000'000ul / refresh] *)
Definition nsec_interval (refresh : Z) : outcome Z :=
  U64.div 1000000000 (U64.of_int refresh).

(** Line 72: a rolling average when [drawTime < rollingMaxDrawTime], a max
    when [drawTime > rollingMaxDrawTime]. *)
Definition rolling_update (alpha rollingMaxDrawTime drawTime : Z) : Z :=
  let range := g_uVBlankRateOfDecayMax in
  U64.add (U64.mul alpha (Z.max rollingMaxDrawTime drawTime))
          (U64.mul (U64.sub range alpha) drawTime) / range.

(** Line 76: clamp to half of the vblank. *)
Definition clamp_to_half (rollingMaxDrawTime redZone nsecInterval : Z) : Z :=
  U64.sub (Z.min (U64.add rollingMaxDrawTime redZone) (nsecInterval / 2)) redZone.

(** Line 78. *)
Definition draw_offset (rollingMaxDrawTime redZone : Z) : Z :=
  U64.add rollingMaxDrawTime redZone.

(** Lines 72 and 76 together: the estimate carried to the next cycle. *)
Definition next_rolling_max (alpha rollingMaxDrawTime drawTime redZone nsecInterval : Z) : Z :=
  clamp_to_half (rolling_update alpha rollingMaxDrawTime drawTime) redZone nsecInterval.


(** Lines 105 to 110: the argument of [sleep_until_nanos]. *)
Definition wake_time (fuel : nat) (g_lastVblank offset nsecInterval now : Z) : outcome Z :=
  let lastVblank := U64.sub g_lastVblank offset in
  let targetPoint := U64.add lastVblank nsecInterval in
  advance fuel nsecInterval now targetPoint.

(** What one turn of the loop reads from outside. *)
Record cycle_env : Type := {
  g_uVBlankRateOfDecayPercentage : Z;
  g_nNestedRefresh : Z;
  g_nOutputRefresh : Z;
  g_uVblankDrawTimeNS : Z;
  g_uVblankDrawBufferRedZoneNS : Z;
  g_lastVblank : Z;
  clock_now : Z;          (* get_time_in_nanos() at line 107 *)
  clock_after_sleep : Z;  (* get_time_in_nanos() at line 115 *)
  write_ret : Z           (* what write() returned *)
}.

(** One turn of the [while ( true )] of [vblankThreadRun]: the new
    [rollingMaxDrawTime] and what the turn did. *)
Definition vblank_cycle (fuel : nat) (env : cycle_env) (rollingMaxDrawTime : Z)
  : outcome (Z * list event) :=
  let alpha := g_uVBlankRateOfDecayPercentage env in
  let refresh := select_refresh (g_nNestedRefresh env) (g_nOutputRefresh env) in
  nsecInterval <- nsec_interval refresh ;;
  let drawTime := g_uVblankDrawTimeNS env in
  let redZone := g_uVblankDrawBufferRedZoneNS env in
  let rollingMaxDrawTime := rolling_update alpha rollingMaxDrawTime drawTime in
  let rollingMaxDrawTime := clamp_to_half rollingMaxDrawTime redZone nsecInterval in
  let offset := draw_offset rollingMaxDrawTime redZone in
  targetPoint <- wake_time fuel (g_lastVblank env) offset nsecInterval (clock_now env) ;;
  let vblanktime := clock_after_sleep env in
  let sent := if write_ret env <=? 0 then PipeWriteFailed else PipeWrite vblanktime in
  Done (rollingMaxDrawTime,
        [SleepUntil targetPoint; sent; SleepFor (U64.add offset 1000000)]).

(** *** Start-up *)

(** What [pipe2] can do: fail, or hand out two descriptors. *)
Inductive pipe2_result : Type :=
| PipeFailed
| PipeCreated (readEnd writeEnd : N).

Definition pipe2_ret (os : pipe2_result) : Z :=
  match os with
  | PipeFailed => -1
  | PipeCreated _ _ => 0
  end.

Record globals : Type := {
  g_vblankPipe : Z * Z;
  lastVblank : Z;                 (* g_lastVblank *)
  vblankThread : option Z         (* the detached thread and its rollingMaxDrawTime *)
}.

Definition pipe2 (os : pipe2_result) (g : globals) : globals :=
  match os with
  | PipeFailed => g
  | PipeCreated r w =>
      {| g_vblankPipe := (Z.of_N r, Z.of_N w);
         lastVblank := lastVblank g;
         vblankThread := vblankThread g |}
  end.

Definition vblank_init (os : pipe2_result) (now : Z) (g : globals) : Z * globals :=
  let g1 := pipe2 os g in
  if negb (pipe2_ret os =? 0) then (-1, g1)
  else
    let g2 := {| g_vblankPipe := g_vblankPipe g1;
                 lastVblank := now;
                 vblankThread := Some g_uStartingDrawTime |} in
    (fst (g_vblankPipe g2), g2).

Definition vblank_mark_possible_vblank (nanos : Z) (g : globals) : globals :=
  {| g_vblankPipe := g_vblankPipe g;
     lastVblank := nanos;
     vblankThread := vblankThread g |}.

End Predictor.

(** ** The frame-rate limiter *)

Module Limiter.

Record FrameInfo_t : Type := {
  lastFrame : Z;
  currentFrame : Z;
  frameCount : Z
}.

(** What [g_TargetFPSMutex] protects. *)
Record shared : Type := {
  g_nFpsLimitTargetFPS : Z;
  g_FrameInfo : FrameInfo_t
}.

(** The locals of [fpslimitThreadRun] that live across turns. *)
Record locals : Type := {
  deviation : Z;
  lastFrameCount : Z;
  lastCommitReleased : Z
}.

Inductive event : Type :=
| ReleaseCommit        (* steamcompmgr_fpslimit_release_commit() *)
| SendFrameDone        (* steamcompmgr_send_frame_done_to_focus_window() *)
| Nudge                (* nudge_steamcompmgr() *)
| SleepUntil (nanos : Z).

(** *** The calls made by the other threads *)

Definition fpslimit_mark_frame (now : Z) (s : shared) : shared :=
  let fi := g_FrameInfo s in
  {| g_nFpsLimitTargetFPS := g_nFpsLimitTargetFPS s;
     g_FrameInfo := {| lastFrame := currentFrame fi;
                       currentFrame := now;
                       frameCount := U64.add (frameCount fi) 1 |} |}.

Definition fpslimit_set_target (nTargetFPS : Z) (s : shared) : shared :=
  {| g_nFpsLimitTargetFPS := nTargetFPS;
     g_FrameInfo := g_FrameInfo s |}.

(** *** The limiter thread *)

(** The predicate of [g_TargetFPSCondition.wait]. *)
Definition wait_predicate (lastFrameCount : Z) (s : shared) : bool :=
  negb (g_nFpsLimitTargetFPS s =? 0)
  && negb (frameCount (g_FrameInfo s) =? lastFrameCount).

(** [1'000'000'000ul / nTargetFPS] *)
Definition target_interval (nTargetFPS : Z) : outcome Z :=
  U64.div 1000000000 (U64.of_int nTargetFPS).

(** Line 209. *)
Definition slow_frame (frameTime targetInterval deviation : Z) : bool :=
  U64.mul frameTime 100
    >? U64.sub (U64.mul targetInterval 103) (U64.mul deviation 100).

(** Lines 235 and 236. *)
Definition update_deviation (deviation frameTime targetInterval : Z) : Z :=
  let deviation := U64.add deviation (U64.sub frameTime targetInterval) in
  Z.min deviation (targetInterval / 16).

(** What one turn reads from outside once it holds its snapshot. *)
Record cycle_env : Type := {
  g_nOutputRefresh : Z;
  clock_t1 : Z;          (* line 198 *)
  clock_now : Z;         (* line 223 *)
  clock_wake : Z;        (* line 232 *)
  clock_released : Z     (* line 215 or 239 *)
}.

(** One turn of the loop after the wait: lines 193 to 251. *)
Definition fpslimit_cycle (fuel : nat) (env : cycle_env)
    (nTargetFPS : Z) (frameInfo : FrameInfo_t) (st : locals)
  : outcome (locals * list event) :=
  useFrameCallbacks <-
    fpslimit_use_frame_callbacks_for_focus_window (g_nOutputRefresh env) nTargetFPS 0 ;;
  targetInterval <- target_interval nTargetFPS ;;
  let t0 := lastCommitReleased st in
  let t1 := clock_t1 env in
  let frameTime := U64.sub t1 t0 in
  let unaligned (evs : list event) := if useFrameCallbacks then [] else evs in
  if slow_frame frameTime targetInterval (deviation st) then
    Done ({| deviation := 0;
             lastFrameCount := frameCount frameInfo;
             lastCommitReleased := clock_released env |},
          [ReleaseCommit] ++ unaligned [SendFrameDone]
            ++ unaligned [SendFrameDone; Nudge])
  else
    let now := clock_now env in
    targetPoint <-
      advance fuel targetInterval now
        (U64.sub (U64.sub (U64.add now targetInterval) (deviation st)) frameTime) ;;
    let t1 := clock_wake env in
    let frameTime := U64.sub t1 t0 in
    Done ({| deviation := update_deviation (deviation st) frameTime targetInterval;
             lastFrameCount := frameCount frameInfo;
             lastCommitReleased := clock_released env |},
          [SleepUntil targetPoint; ReleaseCommit] ++ unaligned [SendFrameDone]
            ++ unaligned [SendFrameDone; Nudge]).

(** Consecutive turns, each with its own snapshot. *)
Record turn : Type := {
  turn_fuel : nat;
  turn_env : cycle_env;
  turn_target : Z;
  turn_frameInfo : FrameInfo_t
}.

Definition run_turn (t : turn) (st : locals) : outcome (locals * list event) :=
  fpslimit_cycle (turn_fuel t) (turn_env t) (turn_target t) (turn_frameInfo t) st.

Fixpoint run_turns (ts : list turn) (st : locals) : outcome locals :=
  match ts with
  | [] => Done st
  | t :: ts' => r <- run_turn t st ;; run_turns ts' (fst r)
  end.

(** *** The three threads together

    The limiter is either inside [wait] or past it with its snapshot;
    the callers of [fpslimit_mark_frame] and [fpslimit_set_target] run in
    between.  Everything that touches [shared] happens under the mutex, so
    the interleaving of whole critical sections is all there is to see. *)

Inductive pc : Type :=
| AtWait
| InCycle (nTargetFPS : Z) (frameInfo : FrameInfo_t).

Record system : Type := {
  sh : shared;
  loc : locals;
  at_pc : pc;
  log : list event;          (* the calls made so far, oldest first *)
  processed : list Z         (* the frame counts measured so far, newest first *)
}.

Inductive action : Type :=
| CallMarkFrame (now : Z)
| CallSetTarget (nTargetFPS : Z)
| LimiterWake                               (* the wait returns, if it can *)
| LimiterBody (fuel : nat) (env : cycle_env). (* the rest of the turn *)

Definition with_shared (s : system) (sh' : shared) : system :=
  {| sh := sh'; loc := loc s; at_pc := at_pc s; log := log s;
     processed := processed s |}.

Definition step (a : action) (s : system) : outcome system :=
  match a with
  | CallMarkFrame now => Done (with_shared s (fpslimit_mark_frame now (sh s)))
  | CallSetTarget n => Done (with_shared s (fpslimit_set_target n (sh s)))
  | LimiterWake =>
      match at_pc s with
      | AtWait =>
          if wait_predicate (lastFrameCount (loc s)) (sh s) then
            Done {| sh := sh s; loc := loc s;
                    at_pc := InCycle (g_nFpsLimitTargetFPS (sh s)) (g_FrameInfo (sh s));
                    log := log s; processed := processed s |}
          else Done s
      | InCycle _ _ => Done s
      end
  | LimiterBody fuel env =>
      match at_pc s with
      | AtWait => Done s
      | InCycle nTargetFPS frameInfo =>
          r <- fpslimit_cycle fuel env nTargetFPS frameInfo (loc s) ;;
          Done {| sh := sh s; loc := fst r; at_pc := AtWait;
                  log := log s ++ snd r;
                  processed := frameCount frameInfo :: processed s |}
      end
  end.

Fixpoint run (acts : list action) (s : system) : outcome system :=
  match acts with
  | [] => Done s
  | a :: acts' => s' <- step a s ;; run acts' s'
  end.

(** [fpslimit_init] and the first lines of the thread: the globals are
    zero-initialised, the two timestamps are set. *)
Definition fpslimit_init (ta tb tc : Z) : system :=
  {| sh := {| g_nFpsLimitTargetFPS := 0;
              g_FrameInfo := {| lastFrame := ta; currentFrame := tb; frameCount := 0 |} |};
     loc := {| deviation := 0; lastFrameCount := 0; lastCommitReleased := tc |};
     at_pc := AtWait;
     log := [];
     processed := [] |}.

(** The clock never runs backwards: every [fpslimit_mark_frame] reads a
    time that is not before the previous [currentFrame]. *)
Fixpoint monotone_marks (cur : Z) (acts : list action) : Prop :=
  match acts with
  | [] => True
  | CallMarkFrame now :: acts' => cur <= now /\ monotone_marks now acts'
  | _ :: acts' => monotone_marks cur acts'
  end.

(** The calls of [fpslimit_mark_frame] in a run. *)
Definition is_mark (a : action) : bool :=
  match a with CallMarkFrame _ => true | _ => false end.

Definition marks (acts : list action) : nat := length (filter is_mark acts).

(** An action that leaves a target of 0 in place. *)
Definition keeps_target_zero (a : action) : Prop :=
  match a with CallSetTarget n => n = 0 | _ => True end.

End Limiter.

(** What holds of every state the three threads can reach, as long as
    [frameCount] has not wrapped. *)
Record reachable_inv (s : Limiter.system) : Prop := {
  inv_last :
    0 <= Limiter.lastFrameCount (Limiter.loc s)
      <= Limiter.frameCount (Limiter.g_FrameInfo (Limiter.sh s));
  inv_snapshot :
    match Limiter.at_pc s with
    | Limiter.AtWait => True
    | Limiter.InCycle n fi =>
        n <> 0
        /\ Limiter.lastFrameCount (Limiter.loc s) < Limiter.frameCount fi
           <= Limiter.frameCount (Limiter.g_FrameInfo (Limiter.sh s))
    end;
  inv_sorted : StronglySorted Z.gt (Limiter.processed s);
  inv_below :
    Forall (fun c => c <= Limiter.lastFrameCount (Limiter.loc s)) (Limiter.processed s)
}.

(** The commits released in a log of the limiter. *)
Definition is_release (e : Limiter.event) : bool :=
  match e with Limiter.ReleaseCommit => true | _ => false end.

Definition releases (l : list Limiter.event) : nat := length (filter is_release l).

(** The tail of calls that every finished turn of the limiter makes. *)
Definition release_calls : list Limiter.event :=
  [Limiter.ReleaseCommit; Limiter.SendFrameDone; Limiter.SendFrameDone; Limiter.Nudge].

(** * Properties *)

(** ** Arithmetic modulo [2^64] *)

Module U64Facts.

Lemma modulus_pos : 0 < U64.modulus.
Proof. reflexivity. Qed.

Lemma modulus_eq : U64.modulus = 18446744073709551616.
Proof. reflexivity. Qed.

Lemma wrap_range (x : Z) : U64.in_range (U64.wrap x).
Proof. unfold U64.in_range, U64.wrap. apply Z.mod_pos_bound. exact modulus_pos. Qed.

Lemma wrap_small (x : Z) : U64.in_range x -> U64.wrap x = x.
Proof. unfold U64.in_range, U64.wrap. intros H. apply Z.mod_small. exact H. Qed.

Lemma wrap_neg (x : Z) : - U64.modulus <= x < 0 -> U64.wrap x = x + U64.modulus.
Proof.
  unfold U64.wrap. intros H.
  rewrite <- (Z.mod_add x 1 U64.modulus) by (pose proof modulus_pos; lia).
  apply Z.mod_small. lia.
Qed.

Lemma wrap_add_wrap_l (a b : Z) : U64.wrap (U64.wrap a + b) = U64.wrap (a + b).
Proof. unfold U64.wrap. apply Zplus_mod_idemp_l. Qed.

Lemma add_small (a b : Z) : 0 <= a -> 0 <= b -> a + b < U64.modulus -> U64.add a b = a + b.
Proof. intros. unfold U64.add. apply wrap_small. unfold U64.in_range. lia. Qed.

Lemma sub_small (a b : Z) : 0 <= b <= a -> a < U64.modulus -> U64.sub a b = a - b.
Proof. intros. unfold U64.sub. apply wrap_small. unfold U64.in_range. lia. Qed.

Lemma mul_small (a b : Z) : 0 <= a -> 0 <= b -> a * b < U64.modulus -> U64.mul a b = a * b.
Proof. intros. unfold U64.mul. apply wrap_small. unfold U64.in_range. nia. Qed.

(** Subtracting and adding back the same amount is the identity, wrapped
    or not. *)
Lemma add_sub_cancel (a b : Z) : U64.in_range a -> U64.add (U64.sub a b) b = a.
Proof.
  intros Ha. unfold U64.add, U64.sub.
  rewrite wrap_add_wrap_l. replace (a - b + b) with a by lia.
  apply wrap_small. exact Ha.
Qed.

End U64Facts.

(** ** The frame-callback decision *)

(** C10.  With a target of 0 the decision is [true] for every vblank count
    and every refresh rate: the test on the target comes first, so neither
    remainder nor the division by the target is evaluated. *)
Theorem use_frame_callbacks_target_zero (g_nOutputRefresh nVBlankCount : Z) :
  fpslimit_use_frame_callbacks_for_focus_window g_nOutputRefresh 0 nVBlankCount = Done true.
Proof. reflexivity. Qed.

Lemma rem_zero_quot_nonzero (a b : Z) :
  a <> 0 -> b <> 0 -> Z.rem a b = 0 -> Z.quot a b <> 0.
Proof.
  intros Ha Hb Hr Hq.
  pose proof (Z.quot_rem' a b) as E. rewrite Hr, Hq in E. lia.
Qed.

(** The call of line 193, whatever the refresh rate: the answer is never
    [true]. *)
Lemma use_frame_callbacks_count_zero (g_nOutputRefresh nTargetFPS : Z) :
  0 < nTargetFPS ->
  fpslimit_use_frame_callbacks_for_focus_window g_nOutputRefresh nTargetFPS 0
  = if (Z.rem g_nOutputRefresh nTargetFPS =? 0) && (g_nOutputRefresh =? 0)
    then Undefined else Done false.
Proof.
  intros Hn.
  unfold fpslimit_use_frame_callbacks_for_focus_window.
  destruct (Z.eqb_spec nTargetFPS 0) as [E | _]; [lia |].
  assert (Hd : CInt.defined g_nOutputRefresh nTargetFPS = true).
  { unfold CInt.defined.
    destruct (Z.eqb_spec nTargetFPS 0); [lia |].
    destruct (Z.eqb_spec nTargetFPS (-1)); [lia |].
    rewrite andb_false_r. reflexivity. }
  unfold CInt.rem at 1, CInt.quot. rewrite Hd. cbn [bind].
  destruct (Z.eqb_spec (Z.rem g_nOutputRefresh nTargetFPS) 0) as [Hal | Hun];
    [| reflexivity].
  cbn [bind andb].
  destruct (Z.eqb_spec g_nOutputRefresh 0) as [E0 | N0].
  - subst. rewrite Z.quot_0_l by lia. reflexivity.
  - pose proof (rem_zero_quot_nonzero g_nOutputRefresh nTargetFPS N0 ltac:(lia) Hal) as Hq.
    unfold CInt.rem, CInt.defined.
    destruct (Z.eqb_spec (Z.quot g_nOutputRefresh nTargetFPS) 0); [contradiction |].
    cbn. reflexivity.
Qed.

(** C1.  As the limiter loop calls it, with vblank count 0, the decision for a
    positive target that divides the refresh rate is never [true]: the
    aligned branch returns [0 % ( g_nOutputRefresh / nTargetFPS )], which is 0,
    that is [false] (and has no meaning when the refresh rate is 0). *)
Theorem use_frame_callbacks_aligned_by_limiter (g_nOutputRefresh nTargetFPS : Z) :
  0 < nTargetFPS ->
  aligned g_nOutputRefresh nTargetFPS ->
  fpslimit_use_frame_callbacks_for_focus_window g_nOutputRefresh nTargetFPS 0
  = if g_nOutputRefresh =? 0 then Undefined else Done false.
Proof.
  intros Hn Hal. unfold aligned in Hal.
  rewrite use_frame_callbacks_count_zero by exact Hn.
  rewrite Hal. reflexivity.
Qed.

Lemma use_frame_callbacks_aligned_by_limiter_witness :
  0 < 30 /\ aligned 60 30 /\
  fpslimit_use_frame_callbacks_for_focus_window 60 30 0 = Done false.
Proof.
  split; [lia |]. split; [reflexivity |].
  apply (use_frame_callbacks_aligned_by_limiter 60 30); [lia | reflexivity].
Defined.

(** The same call with a target that does not divide the refresh rate gives
    the same answer, so the limiter cannot tell the two cases apart. *)
Example use_frame_callbacks_unaligned_60_40 :
  fpslimit_use_frame_callbacks_for_focus_window 60 40 0 = Done false.
Proof. reflexivity. Qed.

(** On the steamcompmgr side the aligned branch answers by vblank count. *)
Example use_frame_callbacks_60_30_by_count :
  fpslimit_use_frame_callbacks_for_focus_window 60 30 1 = Done true
  /\ fpslimit_use_frame_callbacks_for_focus_window 60 30 2 = Done false.
Proof. split; reflexivity. Qed.

(** ** Predictor start-up *)

(** C8.  [vblank_init] returns -1 exactly when [pipe2] fails, and then leaves
    the globals as they were: no thread, [g_lastVblank] not written.  When
    [pipe2] succeeds it stores the current time in [g_lastVblank], launches
    the thread with the starting draw time and returns the read end. *)
Theorem vblank_init_spec (os : Predictor.pipe2_result) (now : Z) (g : Predictor.globals) :
  (fst (Predictor.vblank_init os now g) = -1 <-> os = Predictor.PipeFailed)
  /\ (os = Predictor.PipeFailed -> snd (Predictor.vblank_init os now g) = g)
  /\ (forall readEnd writeEnd,
        os = Predictor.PipeCreated readEnd writeEnd ->
        fst (Predictor.vblank_init os now g) = Z.of_N readEnd
        /\ Predictor.g_vblankPipe (snd (Predictor.vblank_init os now g))
           = (Z.of_N readEnd, Z.of_N writeEnd)
        /\ Predictor.lastVblank (snd (Predictor.vblank_init os now g)) = now
        /\ Predictor.vblankThread (snd (Predictor.vblank_init os now g))
           = Some Predictor.g_uStartingDrawTime).
Proof.
  destruct os as [| r w]; cbn.
  - split; [split; reflexivity |]. split; [reflexivity |]. intros ? ? H. discriminate H.
  - split.
    + split; [lia | discriminate].
    + split; [discriminate |].
      intros r' w' H. injection H as -> ->. repeat split.
Qed.

(** ** The rolling estimate *)

Section RollingEstimate.

Variables alpha rollingMax drawTime : Z.
Hypothesis alpha_range : 0 <= alpha <= 100.
Hypothesis rollingMax_nonneg : 0 <= rollingMax.
Hypothesis drawTime_nonneg : 0 <= drawTime.
(** Nothing overflows: both durations stay below [2^64 / 100] nanoseconds. *)
Hypothesis no_overflow : 100 * Z.max rollingMax drawTime < U64.modulus.

Lemma rolling_update_exact :
  Predictor.rolling_update alpha rollingMax drawTime
  = (alpha * Z.max rollingMax drawTime + (100 - alpha) * drawTime) / 100.
Proof using alpha_range rollingMax_nonneg drawTime_nonneg no_overflow.
  unfold Predictor.rolling_update, Predictor.g_uVBlankRateOfDecayMax.
  pose proof U64Facts.modulus_pos.
  assert (Hm : 0 <= Z.max rollingMax drawTime) by lia.
  assert (Hd : drawTime <= Z.max rollingMax drawTime) by lia.
  rewrite (U64Facts.sub_small 100 alpha) by (rewrite ?U64Facts.modulus_eq; lia).
  rewrite (U64Facts.mul_small alpha) by nia.
  rewrite (U64Facts.mul_small (100 - alpha)) by nia.
  rewrite U64Facts.add_small by nia.
  reflexivity.
Qed.




End RollingEstimate.





(** The scenario of the specification: alpha = 93, red zone 2ms, 60Hz, draw
    times 3ms, 3ms, 9ms, 3ms, 3ms.  The 9ms sample is cut down to the
    clamp, 6333333ns, and the estimate then decays towards 3ms. *)
Example rolling_scenario_60Hz :
  let turn r d := Predictor.next_rolling_max 93 r d 2000000 16666666 in
  let r1 := turn Predictor.g_uStartingDrawTime 3000000 in
  let r2 := turn r1 3000000 in
  let r3 := turn r2 9000000 in
  let r4 := turn r3 3000000 in
  let r5 := turn r4 3000000 in
  [r1; r2; r3; r4; r5] = [3000000; 3000000; 6333333; 6099999; 5882999].
Proof. reflexivity. Qed.

(** ** The clamp *)

Lemma rolling_update_range (alpha rollingMax drawTime : Z) :
  0 <= Predictor.rolling_update alpha rollingMax drawTime
  /\ 100 * Predictor.rolling_update alpha rollingMax drawTime < U64.modulus.
Proof.
  unfold Predictor.rolling_update, Predictor.g_uVBlankRateOfDecayMax.
  set (s := U64.add _ _).
  assert (Hs : U64.in_range s) by apply U64Facts.wrap_range.
  unfold U64.in_range in Hs.
  pose proof (Z.mul_div_le s 100 ltac:(lia)).
  split; [apply Z.div_pos; lia | lia].
Qed.

(** The offset of line 78 is the clamped sum itself, whether or not the
    subtraction of line 76 wrapped. *)
Lemma draw_offset_clamp (rollingMax redZone nsecInterval : Z) :
  0 <= nsecInterval ->
  Predictor.draw_offset (Predictor.clamp_to_half rollingMax redZone nsecInterval) redZone
  = Z.min (U64.add rollingMax redZone) (nsecInterval / 2).
Proof.
  intros HI. unfold Predictor.draw_offset, Predictor.clamp_to_half.
  apply U64Facts.add_sub_cancel.
  pose proof (U64Facts.wrap_range (rollingMax + redZone)) as Hw.
  fold (U64.add rollingMax redZone) in Hw. unfold U64.in_range in *.
  pose proof (Z.div_pos nsecInterval 2 HI ltac:(lia)). lia.
Qed.

(** C2, as the code has it.  After lines 72 and 76 the offset that the loop
    goes on to use, [rollingMax + redZone] computed in [uint64_t] as on line
    78, is at most [nsecInterval / 2], and [rollingMax] is a [uint64_t], so
    not negative.  When the red zone itself fits into half of the interval
    nothing wraps and the sum of the two numbers is at most
    [nsecInterval / 2]. *)
Theorem clamp_bounds_offset (alpha rollingMax drawTime redZone nsecInterval : Z) :
  U64.in_range redZone ->
  U64.in_range nsecInterval ->
  let rollingMax' :=
    Predictor.next_rolling_max alpha rollingMax drawTime redZone nsecInterval in
  Predictor.draw_offset rollingMax' redZone <= nsecInterval / 2
  /\ 0 <= rollingMax'
  /\ (redZone <= nsecInterval / 2 -> rollingMax' + redZone <= nsecInterval / 2).
Proof.
  intros Hrz HI. cbv zeta. unfold Predictor.next_rolling_max.
  unfold U64.in_range in *.
  split.
  - rewrite draw_offset_clamp by lia. lia.
  - split.
    + unfold Predictor.clamp_to_half, U64.sub.
      apply U64Facts.wrap_range.
    + intros Hfit.
      destruct (rolling_update_range alpha rollingMax drawTime) as [Hu0 Hu1].
      set (u := Predictor.rolling_update alpha rollingMax drawTime) in *.
      assert (Hh : nsecInterval / 2 * 2 <= nsecInterval).
      { pose proof (Z.mul_div_le nsecInterval 2 ltac:(lia)). lia. }
      unfold Predictor.clamp_to_half.
      rewrite (U64Facts.add_small u redZone) by lia.
      rewrite U64Facts.sub_small by lia.
      lia.
Qed.

Lemma clamp_bounds_offset_witness :
  (U64.in_range 2000000 /\ U64.in_range 16666666)
  /\ Predictor.draw_offset
       (Predictor.next_rolling_max 93 3000000 9000000 2000000 16666666) 2000000
     <= 16666666 / 2.
Proof.
  assert (Hrz : U64.in_range 2000000) by (split; [lia | reflexivity]).
  assert (HI : U64.in_range 16666666) by (split; [lia | reflexivity]).
  split; [split; assumption |].
  exact (proj1 (clamp_bounds_offset 93 3000000 9000000 2000000 16666666 Hrz HI)).
Defined.

(** At 300Hz half of the interval is 1666666ns, less than the default red
    zone of 2ms: the subtraction of line 76 wraps, and [rollingMax] is left
    333334 below [2^64]. *)
Lemma clamp_wraps_at_300Hz :
  Predictor.next_rolling_max 93 3000000 3000000 2000000 3333333
  = U64.modulus - 333334
  /\ ~ (Predictor.next_rolling_max 93 3000000 3000000 2000000 3333333 + 2000000
        <= 3333333 / 2).
Proof.
  split; [reflexivity |].
  intros H. vm_compute in H. apply H. reflexivity.
Qed.

(** ** The catch-up loop *)

(** With a positive interval, no wrap-around on the way and enough fuel, the
    loop stops at the first point of the progression that is not before
    [now]. *)
Lemma advance_first_point (fuel : nat) (interval now : Z) :
  0 < interval -> now + interval <= U64.modulus ->
  forall targetPoint,
    0 <= targetPoint < U64.modulus ->
    now - targetPoint <= Z.of_nat fuel * interval ->
    exists j,
      0 <= j
      /\ advance fuel interval now targetPoint = Done (targetPoint + j * interval)
      /\ now <= targetPoint + j * interval
      /\ (j = 0 \/ targetPoint + (j - 1) * interval < now).
Proof.
  intros HI Hnow. induction fuel as [| fuel IH]; intros tp Htp Hfuel.
  - exists 0. cbn [advance].
    destruct (Z.ltb_spec tp now) as [Hlt | Hge]; [cbn in Hfuel; lia |].
    rewrite Z.mul_0_l, Z.add_0_r. repeat split; lia.
  - cbn [advance].
    destruct (Z.ltb_spec tp now) as [Hlt | Hge].
    + rewrite U64Facts.add_small by lia.
      destruct (IH (tp + interval) ltac:(lia) ltac:(lia)) as [j [Hj [Hrun [Hle Hmin]]]].
      exists (j + 1). split; [lia |].
      split; [rewrite Hrun; f_equal; lia |].
      split; [lia |].
      right. destruct Hmin as [-> | Hmin]; [lia |].
      replace (j + 1 - 1) with j by lia. lia.
    + exists 0. rewrite Z.mul_0_l, Z.add_0_r. repeat split; lia.
Qed.

(** ** The wake time of the predictor *)

(** C5, as the code has it.  The first candidate is one interval after
    [g_lastVblank - offset], so the time handed to [sleep_until_nanos] is the
    smallest [g_lastVblank - offset + k * nsecInterval] with [k >= 1] that is
    not before [now]; it is the smallest over all integers [k] when
    [g_lastVblank - offset] is before [now].  The loop ends: any fuel from
    some bound on gives this result. *)
Theorem wake_time_next_multiple (g_lastVblank offset nsecInterval now : Z) :
  0 <= offset <= g_lastVblank ->
  g_lastVblank < U64.modulus ->
  0 < nsecInterval ->
  0 <= now ->
  g_lastVblank - offset + nsecInterval < U64.modulus ->
  now + nsecInterval <= U64.modulus ->
  exists k,
    1 <= k
    /\ now <= g_lastVblank - offset + k * nsecInterval
    /\ (forall k', 1 <= k' -> now <= g_lastVblank - offset + k' * nsecInterval -> k <= k')
    /\ (g_lastVblank - offset < now ->
        forall k', now <= g_lastVblank - offset + k' * nsecInterval -> k <= k')
    /\ exists fuel0 : nat,
         forall fuel : nat, (fuel0 <= fuel)%nat ->
           Predictor.wake_time fuel g_lastVblank offset nsecInterval now
           = Done (g_lastVblank - offset + k * nsecInterval).
Proof.
  intros Hoff HG HI Hnow Hfirst Hlast.
  set (base := g_lastVblank - offset).
  assert (Hbase : 0 <= base) by (unfold base; lia).
  destruct (advance_first_point (Z.to_nat now) nsecInterval now HI Hlast
              (base + nsecInterval) ltac:(fold base in Hfirst; lia)
              ltac:(rewrite Z2Nat.id by lia; nia))
    as [j [Hj [_ [Hle Hmin]]]].
  exists (j + 1).
  split; [lia |].
  split; [lia |].
  split; [| split].
  - intros k' Hk' Hle'. destruct Hmin as [-> | Hmin]; [lia |]. nia.
  - intros Hpast k' Hle'. destruct Hmin as [-> | Hmin]; nia.
  - exists (Z.to_nat now). intros fuel Hfuel.
    unfold Predictor.wake_time.
    rewrite (U64Facts.sub_small g_lastVblank offset) by lia.
    rewrite (U64Facts.add_small (g_lastVblank - offset) nsecInterval) by lia.
    fold base.
    destruct (advance_first_point fuel nsecInterval now HI Hlast
                (base + nsecInterval) ltac:(fold base in Hfirst; lia)
                ltac:(assert (now <= Z.of_nat fuel) by lia; nia))
      as [j' [Hj' [Hrun' [Hle' Hmin']]]].
    rewrite Hrun'. f_equal.
    assert (Hup : j' <= j).
    { destruct Hmin' as [-> | Hmin']; [lia |].
      assert (Hlt : (j' - 1) * nsecInterval < j * nsecInterval) by lia.
      apply Z.mul_lt_mono_pos_r in Hlt; lia. }
    assert (Hdown : j <= j').
    { destruct Hmin as [-> | Hmin]; [lia |].
      assert (Hlt : (j - 1) * nsecInterval < j' * nsecInterval) by lia.
      apply Z.mul_lt_mono_pos_r in Hlt; lia. }
    assert (j' = j) by lia.
    subst j'. lia.
Qed.

Lemma wake_time_next_multiple_witness :
  (0 <= 5000000 <= 2000000000 /\ 2000000000 < U64.modulus
   /\ 0 < 16666666 /\ 0 <= 2010000000
   /\ 2000000000 - 5000000 + 16666666 < U64.modulus
   /\ 2010000000 + 16666666 <= U64.modulus)
  /\ exists k,
       1 <= k /\ 2010000000 <= 2000000000 - 5000000 + k * 16666666.
Proof.
  assert (H1 : 0 <= 5000000 <= 2000000000) by lia.
  assert (H0 : 2000000000 < U64.modulus) by reflexivity.
  assert (H2 : 0 < 16666666) by lia.
  assert (H3 : 0 <= 2010000000) by lia.
  assert (H4 : 2000000000 - 5000000 + 16666666 < U64.modulus) by reflexivity.
  assert (H5 : 2010000000 + 16666666 <= U64.modulus) by (intros H; discriminate H).
  split; [repeat split; assumption |].
  destruct (wake_time_next_multiple 2000000000 5000000 16666666 2010000000 H1 H0 H2 H3 H4 H5)
    as [k [Hk [Hle _]]].
  exists k. split; assumption.
Defined.

Example wake_time_60Hz :
  Predictor.wake_time 1 2000000000 5000000 16666666 2010000000 = Done 2011666666.
Proof. reflexivity. Qed.

(** When [g_lastVblank - offset] is not before [now] the loop still adds one
    interval: the vblank reported for 2000000000 with an offset of 5ms is
    itself a point of the progression that is not before 1990000000, and the
    loop sleeps until one interval later. *)
Lemma wake_time_skips_pending_point :
  Predictor.wake_time 0 2000000000 5000000 16666666 1990000000 = Done 2011666666
  /\ 1990000000 <= 2000000000 - 5000000 + 0 * 16666666 < 2011666666.
Proof. split; [reflexivity | lia]. Qed.

(** The same with a vblank reported for the very instant the loop reads the
    clock and no offset at all (no red zone, no draw time): [now] itself is a
    point of the progression, and the loop sleeps one interval. *)
Example wake_time_zero_offset :
  Predictor.draw_offset (Predictor.next_rolling_max 0 3000000 0 0 16666666) 0 = 0
  /\ Predictor.wake_time 0 2000000000 0 16666666 2000000000 = Done 2016666666.
Proof. split; reflexivity. Qed.

(** The turn of the predictor hands exactly this time to
    [sleep_until_nanos], with the offset of line 78. *)
Lemma vblank_cycle_sleeps_until_wake_time (fuel : nat) (env : Predictor.cycle_env)
    (rollingMax rollingMax' : Z) (evs : list Predictor.event) :
  Predictor.vblank_cycle fuel env rollingMax = Done (rollingMax', evs) ->
  exists nsecInterval targetPoint,
    Predictor.nsec_interval
      (Predictor.select_refresh (Predictor.g_nNestedRefresh env)
         (Predictor.g_nOutputRefresh env)) = Done nsecInterval
    /\ rollingMax'
       = Predictor.next_rolling_max (Predictor.g_uVBlankRateOfDecayPercentage env)
           rollingMax (Predictor.g_uVblankDrawTimeNS env)
           (Predictor.g_uVblankDrawBufferRedZoneNS env) nsecInterval
    /\ Predictor.wake_time fuel (Predictor.g_lastVblank env)
         (Predictor.draw_offset rollingMax' (Predictor.g_uVblankDrawBufferRedZoneNS env))
         nsecInterval (Predictor.clock_now env) = Done targetPoint
    /\ hd_error evs = Some (Predictor.SleepUntil targetPoint).
Proof.
  unfold Predictor.vblank_cycle. intros H.
  destruct (Predictor.nsec_interval _) as [I | |]; cbn [bind] in H; try discriminate.
  destruct (Predictor.wake_time _ _ _ _ _) as [tp | |] eqn:Hwake;
    cbn [bind] in H; try discriminate.
  injection H as <- <-.
  exists I, tp. repeat split. exact Hwake.
Qed.

(** ** The deviation of the limiter *)

Lemma target_interval_range (nTargetFPS targetInterval : Z) :
  Limiter.target_interval nTargetFPS = Done targetInterval ->
  0 <= targetInterval <= 1000000000.
Proof.
  unfold Limiter.target_interval, U64.div, U64.of_int.
  pose proof (U64Facts.wrap_range nTargetFPS) as Hw. unfold U64.in_range in Hw.
  destruct (Z.eqb_spec (U64.wrap nTargetFPS) 0) as [| Hnz]; [discriminate |].
  intros H. injection H as <-.
  split.
  - apply Z.div_pos; lia.
  - apply Z.div_le_upper_bound; nia.
Qed.

Lemma target_interval_positive_target (nTargetFPS : Z) :
  0 < nTargetFPS < U64.modulus ->
  Limiter.target_interval nTargetFPS = Done (1000000000 / nTargetFPS).
Proof.
  intros Hn. unfold Limiter.target_interval, U64.div, U64.of_int.
  rewrite U64Facts.wrap_small by (unfold U64.in_range; lia).
  destruct (Z.eqb_spec nTargetFPS 0); [lia | reflexivity].
Qed.

(** Line 236 alone: whatever line 235 left, the minimum is in range. *)
Lemma update_deviation_range (deviation frameTime targetInterval : Z) :
  0 <= targetInterval ->
  0 <= Limiter.update_deviation deviation frameTime targetInterval <= targetInterval / 16.
Proof.
  intros Hti. unfold Limiter.update_deviation.
  pose proof (U64Facts.wrap_range (deviation + U64.sub frameTime targetInterval)) as Hw.
  fold (U64.add deviation (U64.sub frameTime targetInterval)) in Hw.
  unfold U64.in_range in Hw.
  pose proof (Z.div_pos targetInterval 16 Hti ltac:(lia)).
  lia.
Qed.

(** What a finished turn did to the locals, branch by branch. *)
Lemma fpslimit_cycle_inv (fuel : nat) (env : Limiter.cycle_env) (nTargetFPS : Z)
    (frameInfo : Limiter.FrameInfo_t) (st st' : Limiter.locals)
    (evs : list Limiter.event) :
  Limiter.fpslimit_cycle fuel env nTargetFPS frameInfo st = Done (st', evs) ->
  exists targetInterval,
    Limiter.target_interval nTargetFPS = Done targetInterval
    /\ Limiter.lastFrameCount st' = Limiter.frameCount frameInfo
    /\ Limiter.lastCommitReleased st' = Limiter.clock_released env
    /\ let t0 := Limiter.lastCommitReleased st in
       if Limiter.slow_frame (U64.sub (Limiter.clock_t1 env) t0) targetInterval
            (Limiter.deviation st)
       then Limiter.deviation st' = 0
       else Limiter.deviation st'
            = Limiter.update_deviation (Limiter.deviation st)
                (U64.sub (Limiter.clock_wake env) t0) targetInterval.
Proof.
  unfold Limiter.fpslimit_cycle. intros H.
  destruct (fpslimit_use_frame_callbacks_for_focus_window _ _ _) as [use | |];
    cbn [bind] in H; try discriminate.
  destruct (Limiter.target_interval nTargetFPS) as [ti | |];
    cbn [bind] in H; try discriminate.
  exists ti. split; [reflexivity |]. cbv zeta.
  destruct (Limiter.slow_frame _ ti _).
  - injection H as <- _. cbn. repeat split.
  - destruct (advance _ _ _ _) as [tp | |]; cbn [bind] in H; try discriminate.
    injection H as <- _. cbn. repeat split.
Qed.

Lemma fpslimit_cycle_deviation (fuel : nat) (env : Limiter.cycle_env) (nTargetFPS : Z)
    (frameInfo : Limiter.FrameInfo_t) (st st' : Limiter.locals)
    (evs : list Limiter.event) :
  Limiter.fpslimit_cycle fuel env nTargetFPS frameInfo st = Done (st', evs) ->
  exists targetInterval,
    Limiter.target_interval nTargetFPS = Done targetInterval
    /\ 0 <= Limiter.deviation st' <= targetInterval / 16.
Proof.
  intros H. destruct (fpslimit_cycle_inv _ _ _ _ _ _ _ H) as [ti [Hti [_ [_ Hdev]]]].
  exists ti. split; [exact Hti |].
  pose proof (target_interval_range _ _ Hti) as Hr.
  cbv zeta in Hdev. destruct (Limiter.slow_frame _ _ _).
  - rewrite Hdev. pose proof (Z.div_pos ti 16 ltac:(lia) ltac:(lia)). lia.
  - rewrite Hdev. apply update_deviation_range. lia.
Qed.

Lemma run_turns_snoc (ts : list Limiter.turn) (t : Limiter.turn) (st st' : Limiter.locals) :
  Limiter.run_turns (ts ++ [t]) st = Done st' ->
  exists st1 evs,
    Limiter.run_turns ts st = Done st1
    /\ Limiter.run_turn t st1 = Done (st', evs).
Proof.
  revert st. induction ts as [| t0 ts IH]; intros st H.
  - cbn in H. exists st.
    destruct (Limiter.run_turn t st) as [[st2 evs] | |]; cbn in H; try discriminate.
    injection H as <-. exists evs. split; reflexivity.
  - cbn [app Limiter.run_turns] in H |- *.
    destruct (Limiter.run_turn t0 st) as [r | |]; cbn [bind] in H |- *; try discriminate.
    apply IH. exact H.
Qed.

(** C4.  Start the limiter with a deviation of 0 and let it run any number
    of turns, each with the target it found under the lock: after the last
    of them the deviation, a [uint64_t], is at most [targetInterval / 16]
    for [targetInterval = 1000000000 / target] of that turn. *)
Theorem deviation_bounded (ts : list Limiter.turn) (t : Limiter.turn)
    (st st' : Limiter.locals) :
  Limiter.deviation st = 0 ->
  Limiter.run_turns (ts ++ [t]) st = Done st' ->
  exists targetInterval,
    Limiter.target_interval (Limiter.turn_target t) = Done targetInterval
    /\ Z.abs (Limiter.deviation st') <= targetInterval / 16.
Proof.
  intros _ H.
  destruct (run_turns_snoc ts t st st' H) as [st1 [evs [_ Hlast]]].
  destruct (fpslimit_cycle_deviation _ _ _ _ _ _ _ Hlast) as [ti [Hti Hb]].
  exists ti. split; [exact Hti |].
  rewrite Z.abs_eq by lia. lia.
Qed.

Lemma deviation_bounded_witness :
  let st0 := {| Limiter.deviation := 0; Limiter.lastFrameCount := 0;
                Limiter.lastCommitReleased := 1000000000 |} in
  let t1 := {| Limiter.turn_fuel := 1%nat;
               Limiter.turn_env :=
                 {| Limiter.g_nOutputRefresh := 60;
                    Limiter.clock_t1 := 1005000000; Limiter.clock_now := 1005000100;
                    Limiter.clock_wake := 1016700000;
                    Limiter.clock_released := 1016700200 |};
               Limiter.turn_target := 60;
               Limiter.turn_frameInfo :=
                 {| Limiter.lastFrame := 1000000000; Limiter.currentFrame := 1004000000;
                    Limiter.frameCount := 1 |} |} in
  let t2 := {| Limiter.turn_fuel := 1%nat;
               Limiter.turn_env :=
                 {| Limiter.g_nOutputRefresh := 60;
                    Limiter.clock_t1 := 1020000000; Limiter.clock_now := 1020000050;
                    Limiter.clock_wake := 1035000000;
                    Limiter.clock_released := 1035000300 |};
               Limiter.turn_target := 60;
               Limiter.turn_frameInfo :=
                 {| Limiter.lastFrame := 1004000000; Limiter.currentFrame := 1019000000;
                    Limiter.frameCount := 2 |} |} in
  exists st',
    Limiter.deviation st0 = 0
    /\ Limiter.run_turns ([t1] ++ [t2]) st0 = Done st'
    /\ Z.abs (Limiter.deviation st') <= 16666666 / 16.
Proof.
  intros st0 t1 t2.
  eexists. split; [reflexivity |].
  assert (Hrun : Limiter.run_turns ([t1] ++ [t2]) st0
                 = Done {| Limiter.deviation := 1041666; Limiter.lastFrameCount := 2;
                           Limiter.lastCommitReleased := 1035000300 |})
    by (vm_compute; reflexivity).
  split; [exact Hrun |].
  destruct (deviation_bounded [t1] t2 st0 _ eq_refl Hrun) as [ti [Hti Hb]].
  vm_compute in Hti. injection Hti as <-. exact Hb.
Defined.

(** C9.  [deviation] is a [uint64_t]: it is never negative.  In a turn that
    takes the sleep branch and then measures a [frameTime] with
    [frameTime + deviation < targetInterval], line 235 wraps round to
    [2^64 + deviation + frameTime - targetInterval] and line 236 cuts that
    down to exactly [targetInterval / 16]. *)
Theorem early_frame_saturates_deviation (fuel : nat) (env : Limiter.cycle_env)
    (nTargetFPS : Z) (frameInfo : Limiter.FrameInfo_t) (st st' : Limiter.locals)
    (evs : list Limiter.event) (targetInterval : Z) :
  let t0 := Limiter.lastCommitReleased st in
  let frameTime := U64.sub (Limiter.clock_wake env) t0 in
  U64.in_range (Limiter.deviation st) ->
  Limiter.target_interval nTargetFPS = Done targetInterval ->
  Limiter.fpslimit_cycle fuel env nTargetFPS frameInfo st = Done (st', evs) ->
  Limiter.slow_frame (U64.sub (Limiter.clock_t1 env) t0) targetInterval
    (Limiter.deviation st) = false ->
  frameTime + Limiter.deviation st < targetInterval ->
  U64.add (Limiter.deviation st) (U64.sub frameTime targetInterval)
  = U64.modulus + Limiter.deviation st + frameTime - targetInterval
  /\ Limiter.deviation st' = targetInterval / 16
  /\ 0 <= Limiter.deviation st'.
Proof.
  intros t0 frameTime Hdev Hti Hrun Hsleep Hearly.
  pose proof (target_interval_range _ _ Hti) as Hr.
  assert (Hft : U64.in_range frameTime) by apply U64Facts.wrap_range.
  unfold U64.in_range in Hdev, Hft.
  pose proof U64Facts.modulus_eq as Hm.
  assert (Hwrap : U64.add (Limiter.deviation st) (U64.sub frameTime targetInterval)
                  = U64.modulus + Limiter.deviation st + frameTime - targetInterval).
  { unfold U64.add, U64.sub at 1.
    rewrite (U64Facts.wrap_neg (frameTime - targetInterval)) by lia.
    rewrite U64Facts.wrap_small by (unfold U64.in_range; lia). lia. }
  destruct (fpslimit_cycle_inv _ _ _ _ _ _ _ Hrun) as [ti [Hti' [_ [_ Hd]]]].
  rewrite Hti in Hti'. injection Hti' as <-.
  cbv zeta in Hd. fold t0 in Hd. rewrite Hsleep in Hd. fold frameTime in Hd.
  assert (H16 : 0 <= targetInterval / 16 <= 1000000000).
  { split; [apply Z.div_pos; lia | apply Z.div_le_upper_bound; lia]. }
  assert (Hsat : Limiter.deviation st' = targetInterval / 16).
  { rewrite Hd. unfold Limiter.update_deviation. rewrite Hwrap. lia. }
  split; [exact Hwrap |]. split; [exact Hsat | lia].
Qed.

Lemma early_frame_saturates_deviation_witness :
  let st := {| Limiter.deviation := 0; Limiter.lastFrameCount := 0;
               Limiter.lastCommitReleased := 1000000000 |} in
  let env := {| Limiter.g_nOutputRefresh := 60;
                Limiter.clock_t1 := 1005000000; Limiter.clock_now := 1005000100;
                Limiter.clock_wake := 1010000000;
                Limiter.clock_released := 1010000200 |} in
  let fi := {| Limiter.lastFrame := 1000000000; Limiter.currentFrame := 1004000000;
               Limiter.frameCount := 1 |} in
  exists st' evs,
    Limiter.fpslimit_cycle 1 env 60 fi st = Done (st', evs)
    /\ Limiter.deviation st' = 16666666 / 16.
Proof.
  intros st env fi.
  do 2 eexists.
  assert (Hrun : Limiter.fpslimit_cycle 1 env 60 fi st
                 = Done ({| Limiter.deviation := 1041666; Limiter.lastFrameCount := 1;
                            Limiter.lastCommitReleased := 1010000200 |},
                         [Limiter.SleepUntil 1016666766; Limiter.ReleaseCommit;
                          Limiter.SendFrameDone; Limiter.SendFrameDone; Limiter.Nudge]))
    by (vm_compute; reflexivity).
  split; [exact Hrun |].
  assert (Hdev : U64.in_range (Limiter.deviation st)) by (split; [cbn; lia | reflexivity]).
  assert (Hti : Limiter.target_interval 60 = Done 16666666) by reflexivity.
  assert (Hsleep : Limiter.slow_frame (U64.sub (Limiter.clock_t1 env)
                     (Limiter.lastCommitReleased st)) 16666666 (Limiter.deviation st)
                   = false) by reflexivity.
  assert (Hearly : U64.sub (Limiter.clock_wake env) (Limiter.lastCommitReleased st)
                   + Limiter.deviation st < 16666666) by reflexivity.
  exact (proj1 (proj2 (early_frame_saturates_deviation 1 env 60 fi st _ _ 16666666
                         Hdev Hti Hrun Hsleep Hearly))).
Defined.

(** ** A turn of the limiter ends *)

Lemma advance_done (fuel : nat) (interval now targetPoint : Z) :
  now <= targetPoint -> advance fuel interval now targetPoint = Done targetPoint.
Proof.
  intros H. destruct fuel; cbn [advance];
    destruct (Z.ltb_spec targetPoint now); try lia; reflexivity.
Qed.

(** With a positive target, a refresh rate other than 0, a clock that does
    not run backwards and is nowhere near [2^64], and a deviation within its
    bound, one pass through the catch-up loop is enough. *)
Lemma fpslimit_cycle_completes (fuel : nat) (env : Limiter.cycle_env) (nTargetFPS : Z)
    (frameInfo : Limiter.FrameInfo_t) (st : Limiter.locals) :
  0 < nTargetFPS <= CInt.int_max ->
  Limiter.g_nOutputRefresh env <> 0 ->
  0 <= Limiter.deviation st <= 1000000000 / nTargetFPS / 16 ->
  0 <= Limiter.lastCommitReleased st <= Limiter.clock_t1 env ->
  100 * (Limiter.clock_t1 env - Limiter.lastCommitReleased st) < U64.modulus ->
  Limiter.clock_t1 env <= Limiter.clock_now env ->
  Limiter.clock_now env + 2000000000 < U64.modulus ->
  exists r, Limiter.fpslimit_cycle (S fuel) env nTargetFPS frameInfo st = Done r.
Proof.
  intros Hn Hrefresh Hdev Ht0 Hft Ht1 Hnow.
  pose proof U64Facts.modulus_eq as Hm.
  unfold CInt.int_max in Hn.
  unfold Limiter.fpslimit_cycle.
  rewrite use_frame_callbacks_count_zero by lia.
  destruct (Z.eqb_spec (Limiter.g_nOutputRefresh env) 0) as [| _]; [contradiction |].
  rewrite andb_false_r. cbn [bind].
  rewrite target_interval_positive_target by lia. cbn [bind].
  set (ti := 1000000000 / nTargetFPS) in *.
  assert (Hti : 0 <= ti <= 1000000000).
  { unfold ti. split; [apply Z.div_pos; lia | apply Z.div_le_upper_bound; nia]. }
  assert (H16 : ti / 16 * 16 <= ti).
  { pose proof (Z.mul_div_le ti 16 ltac:(lia)). lia. }
  set (dev := Limiter.deviation st) in *.
  set (t0 := Limiter.lastCommitReleased st) in *.
  set (t1 := Limiter.clock_t1 env) in *.
  set (now := Limiter.clock_now env) in *.
  rewrite (U64Facts.sub_small t1 t0) by lia.
  destruct (Limiter.slow_frame (t1 - t0) ti dev) eqn:Hslow; [eexists; reflexivity |].
  unfold Limiter.slow_frame in Hslow.
  rewrite (U64Facts.mul_small (t1 - t0) 100) in Hslow by lia.
  rewrite (U64Facts.mul_small ti 103) in Hslow by lia.
  rewrite (U64Facts.mul_small dev 100) in Hslow by lia.
  rewrite (U64Facts.sub_small (ti * 103) (dev * 100)) in Hslow by lia.
  rewrite Z.gtb_ltb, Z.ltb_ge in Hslow.
  rewrite (U64Facts.add_small now ti) by lia.
  rewrite (U64Facts.sub_small (now + ti) dev) by lia.
  rewrite (U64Facts.sub_small (now + ti - dev) (t1 - t0)) by lia.
  cbn [advance].
  destruct (Z.ltb_spec (now + ti - dev - (t1 - t0)) now) as [Hlate | Hok].
  - rewrite U64Facts.add_small by lia.
    rewrite advance_done by lia.
    cbn [bind]. eexists. reflexivity.
  - cbn [bind]. eexists. reflexivity.
Qed.

(** ** The limiter and its callers *)

Lemma wait_predicate_true (lastFrameCount : Z) (s : Limiter.shared) :
  Limiter.wait_predicate lastFrameCount s = true
  <-> Limiter.g_nFpsLimitTargetFPS s <> 0
      /\ Limiter.frameCount (Limiter.g_FrameInfo s) <> lastFrameCount.
Proof.
  unfold Limiter.wait_predicate.
  rewrite andb_true_iff, !negb_true_iff, !Z.eqb_neq. reflexivity.
Qed.

Lemma fpslimit_init_inv (ta tb tc : Z) : reachable_inv (Limiter.fpslimit_init ta tb tc).
Proof.
  constructor; cbn; try lia; constructor.
Qed.

Lemma step_inv (a : Limiter.action) (s s' : Limiter.system) :
  reachable_inv s ->
  Limiter.frameCount (Limiter.g_FrameInfo (Limiter.sh s))
    + Z.of_nat (Limiter.marks [a]) < U64.modulus ->
  Limiter.step a s = Done s' ->
  reachable_inv s'
  /\ Limiter.frameCount (Limiter.g_FrameInfo (Limiter.sh s'))
     = Limiter.frameCount (Limiter.g_FrameInfo (Limiter.sh s))
       + Z.of_nat (Limiter.marks [a]).
Proof.
  intros [Hlast Hsnap Hsort Hbelow] Hroom Hstep.
  pose proof U64Facts.modulus_eq as Hm.
  destruct a as [now | n | | fuel env]; cbn in Hroom, Hstep.
  - (* fpslimit_mark_frame *)
    injection Hstep as <-. cbn.
    rewrite U64Facts.add_small by lia.
    split; [| reflexivity].
    constructor; cbn; rewrite ?U64Facts.add_small by lia; try assumption; try lia.
    destruct (Limiter.at_pc s); [exact I | lia].
  - (* fpslimit_set_target *)
    injection Hstep as <-. cbn.
    split; [| cbn; lia]. constructor; cbn; assumption.
  - (* the wait returns *)
    destruct (Limiter.at_pc s) eqn:Hpc.
    + destruct (Limiter.wait_predicate _ _) eqn:Hpred.
      * injection Hstep as <-. cbn. split; [| cbn; lia].
        apply wait_predicate_true in Hpred. destruct Hpred as [Hn Hfc].
        constructor; cbn; try assumption. split; [exact Hn | lia].
      * injection Hstep as <-. split; [| cbn; lia].
        constructor; try assumption. rewrite Hpc. exact I.
    + injection Hstep as <-. split; [| cbn; lia].
      constructor; try assumption. rewrite Hpc. exact Hsnap.
  - (* the rest of the turn *)
    destruct (Limiter.at_pc s) as [| n fi] eqn:Hpc.
    + injection Hstep as <-. split; [| cbn; lia].
      constructor; try assumption. rewrite Hpc. exact I.
    + destruct (Limiter.fpslimit_cycle fuel env n fi (Limiter.loc s))
        as [[st' evs] | |] eqn:Hcycle; cbn [bind] in Hstep; try discriminate.
      injection Hstep as <-. cbn. split; [| cbn; lia].
      destruct (fpslimit_cycle_inv _ _ _ _ _ _ _ Hcycle) as [ti [_ [Hcount _]]].
      destruct Hsnap as [Hn Hfi].
      constructor; cbn; rewrite ?Hcount.
      * lia.
      * exact I.
      * constructor; [exact Hsort |].
        eapply Forall_impl; [| exact Hbelow]. cbn. intros c Hc. lia.
      * constructor; [lia |].
        eapply Forall_impl; [| exact Hbelow]. cbn. intros c Hc. lia.
Qed.

Lemma marks_cons (a : Limiter.action) (acts : list Limiter.action) :
  Z.of_nat (Limiter.marks (a :: acts))
  = Z.of_nat (Limiter.marks [a]) + Z.of_nat (Limiter.marks acts).
Proof.
  unfold Limiter.marks. cbn [filter]. destruct (Limiter.is_mark a); cbn [length]; lia.
Qed.

Lemma run_inv (acts : list Limiter.action) :
  forall s s',
    reachable_inv s ->
    Limiter.frameCount (Limiter.g_FrameInfo (Limiter.sh s))
      + Z.of_nat (Limiter.marks acts) < U64.modulus ->
    Limiter.run acts s = Done s' ->
    reachable_inv s'
    /\ Limiter.frameCount (Limiter.g_FrameInfo (Limiter.sh s'))
       = Limiter.frameCount (Limiter.g_FrameInfo (Limiter.sh s))
         + Z.of_nat (Limiter.marks acts).
Proof.
  induction acts as [| a acts IH]; intros s s' Hinv Hroom Hrun.
  - cbn in Hrun. injection Hrun as <-. split; [exact Hinv | cbn; lia].
  - cbn [Limiter.run] in Hrun. rewrite marks_cons in Hroom |- *.
    destruct (Limiter.step a s) as [s1 | |] eqn:Hstep; cbn [bind] in Hrun; try discriminate.
    destruct (step_inv a s s1 Hinv ltac:(lia) Hstep) as [Hinv1 Hfc1].
    destruct (IH s1 s' Hinv1 ltac:(lia) Hrun) as [Hinv' Hfc'].
    split; [exact Hinv' | lia].
Qed.

(** With a target of 0 the predicate of the wait is false whatever
    [frameCount] is, so the limiter stays inside the wait and calls nothing. *)
Lemma blocked_while_target_zero (acts : list Limiter.action) :
  forall s,
    Limiter.at_pc s = Limiter.AtWait ->
    Limiter.g_nFpsLimitTargetFPS (Limiter.sh s) = 0 ->
    Forall Limiter.keeps_target_zero acts ->
    exists s',
      Limiter.run acts s = Done s'
      /\ Limiter.at_pc s' = Limiter.AtWait
      /\ Limiter.g_nFpsLimitTargetFPS (Limiter.sh s') = 0
      /\ Limiter.loc s' = Limiter.loc s
      /\ Limiter.log s' = Limiter.log s
      /\ Limiter.processed s' = Limiter.processed s.
Proof.
  induction acts as [| a acts IH]; intros s Hpc Hzero Hidle.
  - exists s. repeat split; assumption.
  - inversion Hidle as [| a' acts' Ha Hacts]; subst.
    assert (Hstep : exists s1,
               Limiter.step a s = Done s1
               /\ Limiter.at_pc s1 = Limiter.AtWait
               /\ Limiter.g_nFpsLimitTargetFPS (Limiter.sh s1) = 0
               /\ Limiter.loc s1 = Limiter.loc s
               /\ Limiter.log s1 = Limiter.log s
               /\ Limiter.processed s1 = Limiter.processed s).
    { destruct a as [now | n | | fuel env]; cbn [Limiter.step].
      - eexists. split; [reflexivity |]. cbn. repeat split; assumption.
      - cbn in Ha. subst n. eexists. split; [reflexivity |]. cbn. repeat split; assumption.
      - rewrite Hpc. unfold Limiter.wait_predicate. rewrite Hzero. cbn.
        exists s. repeat split; assumption.
      - rewrite Hpc. exists s. repeat split; assumption. }
    destruct Hstep as [s1 [Hs1 [Hpc1 [Hzero1 [Hloc1 [Hlog1 Hproc1]]]]]].
    destruct (IH s1 Hpc1 Hzero1 Hacts) as [s' [Hrun [Hpc' [Hzero' [Hloc' [Hlog' Hproc']]]]]].
    exists s'. cbn [Limiter.run]. rewrite Hs1. cbn [bind].
    repeat split; try assumption; congruence.
Qed.

(** C6.  Take the limiter inside its wait with a target of 0.  Whatever
    frames are marked and however often the target is set to 0 again, it
    stays inside the wait, with the predicate false, and calls nothing: no
    commit is released.  After [fpslimit_set_target] with a positive target
    the next [fpslimit_mark_frame] makes the predicate true and the wait
    returns with that target and the new frame.  The predicate is
    [target != 0 && frameCount != lastFrameCount]. *)
Theorem limiter_waits_for_target_and_frame (ta tb tc : Z)
    (pre idle : list Limiter.action) (s : Limiter.system) (n now : Z) :
  Limiter.run pre (Limiter.fpslimit_init ta tb tc) = Done s ->
  Z.of_nat (Limiter.marks pre) + Z.of_nat (Limiter.marks idle) + 1 < U64.modulus ->
  Limiter.at_pc s = Limiter.AtWait ->
  Limiter.g_nFpsLimitTargetFPS (Limiter.sh s) = 0 ->
  Forall Limiter.keeps_target_zero idle ->
  0 < n ->
  (forall lastFrameCount sh,
      Limiter.wait_predicate lastFrameCount sh = true
      <-> Limiter.g_nFpsLimitTargetFPS sh <> 0
          /\ Limiter.frameCount (Limiter.g_FrameInfo sh) <> lastFrameCount)
  /\ exists s1,
       Limiter.run idle s = Done s1
       /\ Limiter.at_pc s1 = Limiter.AtWait
       /\ Limiter.wait_predicate (Limiter.lastFrameCount (Limiter.loc s1)) (Limiter.sh s1)
          = false
       /\ Limiter.log s1 = Limiter.log s
       /\ Limiter.processed s1 = Limiter.processed s
       /\ exists s2,
            Limiter.run [Limiter.CallSetTarget n; Limiter.CallMarkFrame now;
                         Limiter.LimiterWake] s1 = Done s2
            /\ Limiter.at_pc s2 = Limiter.InCycle n (Limiter.g_FrameInfo (Limiter.sh s2))
            /\ Limiter.frameCount (Limiter.g_FrameInfo (Limiter.sh s2))
               = Limiter.frameCount (Limiter.g_FrameInfo (Limiter.sh s1)) + 1
            /\ Limiter.log s2 = Limiter.log s.
Proof.
  intros Hpre Hroom Hpc Hzero Hidle Hn.
  split; [exact wait_predicate_true |].
  pose proof U64Facts.modulus_eq as Hm.
  destruct (run_inv pre _ s (fpslimit_init_inv ta tb tc) ltac:(cbn; lia) Hpre)
    as [Hinv Hfc].
  cbn in Hfc.
  destruct (blocked_while_target_zero idle s Hpc Hzero Hidle)
    as [s1 [Hrun1 [Hpc1 [Hzero1 [Hloc1 [Hlog1 Hproc1]]]]]].
  destruct (run_inv idle s s1 Hinv ltac:(lia) Hrun1) as [[Hlast1 _ _ _] Hfc1].
  exists s1. split; [exact Hrun1 |]. split; [exact Hpc1 |].
  split; [unfold Limiter.wait_predicate; rewrite Hzero1; reflexivity |].
  split; [exact Hlog1 |]. split; [exact Hproc1 |].
  cbn [Limiter.run Limiter.step bind Limiter.with_shared Limiter.at_pc Limiter.sh
       Limiter.loc].
  rewrite Hpc1.
  assert (Hpred : Limiter.wait_predicate (Limiter.lastFrameCount (Limiter.loc s1))
                    (Limiter.fpslimit_mark_frame now
                       (Limiter.fpslimit_set_target n (Limiter.sh s1))) = true).
  { apply wait_predicate_true. cbn. rewrite U64Facts.add_small by lia. lia. }
  rewrite Hpred. cbn [bind].
  eexists. split; [reflexivity |]. cbn.
  rewrite U64Facts.add_small by lia.
  repeat split. exact Hlog1.
Qed.

Lemma limiter_waits_for_target_and_frame_witness :
  let init := Limiter.fpslimit_init 100 101 102 in
  let idle := [Limiter.CallMarkFrame 200; Limiter.LimiterWake;
               Limiter.CallSetTarget 0; Limiter.CallMarkFrame 300] in
  (Limiter.run [] init = Done init
   /\ Z.of_nat (Limiter.marks []) + Z.of_nat (Limiter.marks idle) + 1 < U64.modulus
   /\ Limiter.at_pc init = Limiter.AtWait
   /\ Limiter.g_nFpsLimitTargetFPS (Limiter.sh init) = 0
   /\ Forall Limiter.keeps_target_zero idle
   /\ 0 < 30)
  /\ exists s1,
       Limiter.run idle init = Done s1
       /\ Limiter.at_pc s1 = Limiter.AtWait
       /\ Limiter.log s1 = []
       /\ exists s2,
            Limiter.run [Limiter.CallSetTarget 30; Limiter.CallMarkFrame 400;
                         Limiter.LimiterWake] s1 = Done s2
            /\ Limiter.at_pc s2 = Limiter.InCycle 30 (Limiter.g_FrameInfo (Limiter.sh s2)).
Proof.
  intros init idle.
  assert (H1 : Limiter.run [] init = Done init) by reflexivity.
  assert (H2 : Z.of_nat (Limiter.marks []) + Z.of_nat (Limiter.marks idle) + 1
               < U64.modulus) by reflexivity.
  assert (H3 : Limiter.at_pc init = Limiter.AtWait) by reflexivity.
  assert (H4 : Limiter.g_nFpsLimitTargetFPS (Limiter.sh init) = 0) by reflexivity.
  assert (H5 : Forall Limiter.keeps_target_zero idle)
    by (repeat constructor).
  assert (H6 : 0 < 30) by lia.
  split; [repeat split; assumption |].
  destruct (limiter_waits_for_target_and_frame 100 101 102 [] idle init 30 400
              H1 H2 H3 H4 H5 H6)
    as [_ [s1 [Hrun [Hpc [_ [Hlog [_ [s2 [Hrun2 [Hpc2 _]]]]]]]]]].
  exists s1. split; [exact Hrun |]. split; [exact Hpc |]. split; [exact Hlog |].
  exists s2. split; [exact Hrun2 | exact Hpc2].
Defined.

(** ** Frames are counted once and measured once *)

Lemma sorted_gt_nodup (l : list Z) : StronglySorted Z.gt l -> NoDup l.
Proof.
  induction 1 as [| a l Hs IH Hall]; constructor; [| exact IH].
  intros Hin. rewrite Forall_forall in Hall. specialize (Hall a Hin). lia.
Qed.

Lemma step_keeps_frames (a : Limiter.action) (s s' : Limiter.system) :
  Limiter.is_mark a = false ->
  Limiter.step a s = Done s' ->
  Limiter.g_FrameInfo (Limiter.sh s') = Limiter.g_FrameInfo (Limiter.sh s).
Proof.
  intros Ha Hstep. destruct a as [now | n | | fuel env]; cbn in Ha, Hstep.
  - discriminate.
  - injection Hstep as <-. reflexivity.
  - destruct (Limiter.at_pc s); [destruct (Limiter.wait_predicate _ _) |];
      injection Hstep as <-; reflexivity.
  - destruct (Limiter.at_pc s) as [| n fi]; [injection Hstep as <-; reflexivity |].
    destruct (Limiter.fpslimit_cycle _ _ _ _ _); cbn [bind] in Hstep; try discriminate.
    injection Hstep as <-. reflexivity.
Qed.

Lemma run_frames_ordered (acts : list Limiter.action) :
  forall s s',
    Limiter.lastFrame (Limiter.g_FrameInfo (Limiter.sh s))
      <= Limiter.currentFrame (Limiter.g_FrameInfo (Limiter.sh s)) ->
    Limiter.monotone_marks (Limiter.currentFrame (Limiter.g_FrameInfo (Limiter.sh s))) acts ->
    Limiter.run acts s = Done s' ->
    Limiter.lastFrame (Limiter.g_FrameInfo (Limiter.sh s'))
      <= Limiter.currentFrame (Limiter.g_FrameInfo (Limiter.sh s')).
Proof.
  induction acts as [| a acts IH]; intros s s' Hord Hmono Hrun.
  - cbn in Hrun. injection Hrun as <-. exact Hord.
  - cbn [Limiter.run] in Hrun.
    destruct (Limiter.step a s) as [s1 | |] eqn:Hstep; cbn [bind] in Hrun; try discriminate.
    destruct (Limiter.is_mark a) eqn:Ha.
    + destruct a as [now | | |]; try discriminate.
      cbn in Hstep. injection Hstep as <-.
      cbn in Hmono. destruct Hmono as [Hnow Hmono].
      eapply IH; [| | exact Hrun]; [cbn; lia | cbn; exact Hmono].
    + pose proof (step_keeps_frames a s s1 Ha Hstep) as Hsame.
      apply (IH s1 s'); [rewrite Hsame; exact Hord | | exact Hrun].
      rewrite Hsame. destruct a; try discriminate; exact Hmono.
Qed.

(** C7.  [fpslimit_mark_frame] moves [currentFrame] to [lastFrame], stores
    the current time in [currentFrame] and adds exactly 1 to [frameCount],
    so that after any run [frameCount] is the number of calls and, with a
    clock that does not run backwards, [currentFrame >= lastFrame].  The
    frame counts the limiter measured, newest first, are strictly
    decreasing: no count is measured twice. *)
Theorem frames_counted_and_measured_once (ta tb tc : Z)
    (acts : list Limiter.action) (s : Limiter.system) :
  ta <= tb ->
  Limiter.monotone_marks tb acts ->
  Z.of_nat (Limiter.marks acts) < U64.modulus ->
  Limiter.run acts (Limiter.fpslimit_init ta tb tc) = Done s ->
  (forall now sh,
      0 <= Limiter.frameCount (Limiter.g_FrameInfo sh) < U64.modulus - 1 ->
      let sh' := Limiter.fpslimit_mark_frame now sh in
      Limiter.lastFrame (Limiter.g_FrameInfo sh')
      = Limiter.currentFrame (Limiter.g_FrameInfo sh)
      /\ Limiter.currentFrame (Limiter.g_FrameInfo sh') = now
      /\ Limiter.frameCount (Limiter.g_FrameInfo sh')
         = Limiter.frameCount (Limiter.g_FrameInfo sh) + 1
      /\ Limiter.g_nFpsLimitTargetFPS sh' = Limiter.g_nFpsLimitTargetFPS sh)
  /\ Limiter.frameCount (Limiter.g_FrameInfo (Limiter.sh s))
     = Z.of_nat (Limiter.marks acts)
  /\ Limiter.lastFrame (Limiter.g_FrameInfo (Limiter.sh s))
     <= Limiter.currentFrame (Limiter.g_FrameInfo (Limiter.sh s))
  /\ StronglySorted Z.gt (Limiter.processed s)
  /\ NoDup (Limiter.processed s)
  /\ Forall (fun c => c <= Limiter.lastFrameCount (Limiter.loc s)) (Limiter.processed s).
Proof.
  intros Hinit Hmono Hroom Hrun.
  pose proof U64Facts.modulus_eq as Hm.
  split.
  { intros now sh Hfc. cbn. rewrite U64Facts.add_small by lia. repeat split. }
  destruct (run_inv acts _ s (fpslimit_init_inv ta tb tc) ltac:(cbn; lia) Hrun)
    as [[_ _ Hsorted Hbelow] Hfc].
  cbn in Hfc.
  split; [lia |].
  split; [apply (run_frames_ordered acts (Limiter.fpslimit_init ta tb tc) s);
          [cbn; lia | exact Hmono | exact Hrun] |].
  split; [exact Hsorted |].
  split; [apply sorted_gt_nodup; exact Hsorted | exact Hbelow].
Qed.

Lemma frames_counted_and_measured_once_witness :
  let env1 := {| Limiter.g_nOutputRefresh := 60;
                 Limiter.clock_t1 := 250; Limiter.clock_now := 260;
                 Limiter.clock_wake := 16667000; Limiter.clock_released := 16667100 |} in
  let env2 := {| Limiter.g_nOutputRefresh := 60;
                 Limiter.clock_t1 := 20000000; Limiter.clock_now := 20000100;
                 Limiter.clock_wake := 33400000; Limiter.clock_released := 33400100 |} in
  let acts := [Limiter.CallSetTarget 60; Limiter.CallMarkFrame 200;
               Limiter.LimiterWake; Limiter.LimiterBody 1 env1;
               Limiter.CallMarkFrame 300; Limiter.CallMarkFrame 400;
               Limiter.LimiterWake; Limiter.LimiterWake; Limiter.LimiterBody 1 env2;
               Limiter.LimiterWake] in
  exists s,
    (100 <= 101
     /\ Limiter.monotone_marks 101 acts
     /\ Z.of_nat (Limiter.marks acts) < U64.modulus
     /\ Limiter.run acts (Limiter.fpslimit_init 100 101 102) = Done s)
    /\ Limiter.frameCount (Limiter.g_FrameInfo (Limiter.sh s)) = 3
    /\ Limiter.processed s = [3; 1]
    /\ NoDup (Limiter.processed s).
Proof.
  intros env1 env2 acts.
  assert (Hrun : exists s, Limiter.run acts (Limiter.fpslimit_init 100 101 102) = Done s)
    by (vm_compute; eexists; reflexivity).
  destruct Hrun as [s Hrun].
  assert (H1 : 100 <= 101) by lia.
  assert (H2 : Limiter.monotone_marks 101 acts) by (cbn; lia).
  assert (H3 : Z.of_nat (Limiter.marks acts) < U64.modulus) by reflexivity.
  exists s. split; [repeat split; assumption |].
  destruct (frames_counted_and_measured_once 100 101 102 acts s H1 H2 H3 Hrun)
    as [_ [Hfc [_ [_ [Hnd _]]]]].
  split; [exact Hfc |]. split; [| exact Hnd].
  vm_compute in Hrun. injection Hrun as <-. reflexivity.
Defined.

(** A turn that is already past the wait when the target is set to 0 still
    runs to its end and releases its commit. *)
Example turn_in_flight_still_releases :
  let env := {| Limiter.g_nOutputRefresh := 60;
                Limiter.clock_t1 := 250; Limiter.clock_now := 260;
                Limiter.clock_wake := 16667000; Limiter.clock_released := 16667100 |} in
  exists s,
    Limiter.run [Limiter.CallSetTarget 60; Limiter.CallMarkFrame 200;
                 Limiter.LimiterWake; Limiter.CallSetTarget 0;
                 Limiter.LimiterBody 1 env]
      (Limiter.fpslimit_init 100 101 102) = Done s
    /\ Limiter.g_nFpsLimitTargetFPS (Limiter.sh s) = 0
    /\ In Limiter.ReleaseCommit (Limiter.log s).
Proof.
  eexists. split; [vm_compute; reflexivity |].
  split; [reflexivity | cbn; tauto].
Qed.

(** * Further properties of the code *)

(** ** The frame-callback decision, branch by branch *)

(** X1.  A target other than 0 that does not divide the refresh rate gives
    [false] for every vblank count: frame callbacks are never left to the
    steamcompmgr thread. *)
Theorem use_frame_callbacks_unaligned (g_nOutputRefresh nTargetFPS nVBlankCount : Z) :
  nTargetFPS <> 0 ->
  Z.rem g_nOutputRefresh nTargetFPS <> 0 ->
  fpslimit_use_frame_callbacks_for_focus_window g_nOutputRefresh nTargetFPS nVBlankCount
  = Done false.
Proof.
  intros Hn Hrem.
  unfold fpslimit_use_frame_callbacks_for_focus_window, CInt.rem, CInt.defined.
  destruct (Z.eqb_spec nTargetFPS 0) as [| _]; [contradiction |].
  destruct (Z.eqb_spec nTargetFPS (-1)) as [E | _].
  - subst. exfalso. apply Hrem.
    pose proof (Z.rem_opp_r g_nOutputRefresh 1 ltac:(lia)) as H.
    change (- (1)) with (-1) in H. rewrite H. apply Z.rem_1_r.
  - rewrite andb_false_r. cbn [negb andb bind].
    destruct (Z.eqb_spec (Z.rem g_nOutputRefresh nTargetFPS) 0); [contradiction |].
    reflexivity.
Qed.

Lemma use_frame_callbacks_unaligned_witness :
  (40 <> 0 /\ Z.rem 60 40 <> 0)
  /\ fpslimit_use_frame_callbacks_for_focus_window 60 40 7 = Done false.
Proof.
  assert (H1 : 40 <> 0) by discriminate.
  assert (H2 : Z.rem 60 40 <> 0) by discriminate.
  split; [split; assumption |].
  exact (use_frame_callbacks_unaligned 60 40 7 H1 H2).
Defined.

(** X2.  For a positive target that divides a positive refresh rate the
    answer follows the vblank count: [true] on every count that is not a
    multiple of [g_nOutputRefresh / nTargetFPS], [false] on the multiples.
    With the target equal to the refresh rate every count is a multiple, and
    the answer is always [false]. *)
Theorem use_frame_callbacks_aligned_by_count (g_nOutputRefresh nTargetFPS nVBlankCount : Z) :
  0 < nTargetFPS ->
  0 < g_nOutputRefresh ->
  Z.rem g_nOutputRefresh nTargetFPS = 0 ->
  0 <= nVBlankCount ->
  fpslimit_use_frame_callbacks_for_focus_window g_nOutputRefresh nTargetFPS nVBlankCount
  = Done (negb (nVBlankCount mod (g_nOutputRefresh / nTargetFPS) =? 0))
  /\ (nTargetFPS = g_nOutputRefresh ->
      fpslimit_use_frame_callbacks_for_focus_window g_nOutputRefresh nTargetFPS nVBlankCount
      = Done false).
Proof.
  intros Hn Hr Hrem Hv.
  assert (Hq : Z.quot g_nOutputRefresh nTargetFPS = g_nOutputRefresh / nTargetFPS)
    by (apply Z.quot_div_nonneg; lia).
  assert (Hqpos : 0 < g_nOutputRefresh / nTargetFPS).
  { pose proof (Z.quot_rem' g_nOutputRefresh nTargetFPS) as E.
    rewrite Hrem, Hq in E.
    assert (0 <= g_nOutputRefresh / nTargetFPS) by (apply Z.div_pos; lia). nia. }
  assert (Hcall :
    fpslimit_use_frame_callbacks_for_focus_window g_nOutputRefresh nTargetFPS nVBlankCount
    = Done (negb (nVBlankCount mod (g_nOutputRefresh / nTargetFPS) =? 0))).
  { unfold fpslimit_use_frame_callbacks_for_focus_window, CInt.rem, CInt.quot, CInt.defined.
    destruct (Z.eqb_spec nTargetFPS 0) as [| _]; [lia |].
    destruct (Z.eqb_spec nTargetFPS (-1)) as [| _]; [lia |].
    rewrite andb_false_r. cbn [negb andb bind].
    rewrite Hrem. cbn [Z.eqb bind]. rewrite Hq.
    destruct (Z.eqb_spec (g_nOutputRefresh / nTargetFPS) 0) as [| _]; [lia |].
    destruct (Z.eqb_spec (g_nOutputRefresh / nTargetFPS) (-1)) as [| _]; [lia |].
    rewrite andb_false_r. cbn [negb andb bind].
    rewrite Z.rem_mod_nonneg by lia. reflexivity. }
  split; [exact Hcall |].
  intros E. rewrite Hcall. subst nTargetFPS.
  rewrite Z.div_same by lia. rewrite Z.mod_1_r. reflexivity.
Qed.

Lemma use_frame_callbacks_aligned_by_count_witness :
  (0 < 20 /\ 0 < 60 /\ Z.rem 60 20 = 0 /\ 0 <= 4)
  /\ fpslimit_use_frame_callbacks_for_focus_window 60 20 4
     = Done (negb (4 mod (60 / 20) =? 0)).
Proof.
  assert (H1 : 0 < 20) by lia.
  assert (H2 : 0 < 60) by lia.
  assert (H3 : Z.rem 60 20 = 0) by reflexivity.
  assert (H4 : 0 <= 4) by lia.
  split; [repeat split; assumption |].
  exact (proj1 (use_frame_callbacks_aligned_by_count 60 20 4 H1 H2 H3 H4)).
Defined.

(** ** The catch-up loop, wrap-around included *)

Lemma advance_exit (fuel : nat) (interval now : Z) :
  forall targetPoint r,
    U64.in_range targetPoint ->
    advance fuel interval now targetPoint = Done r ->
    now <= r
    /\ exists j : nat, (j <= fuel)%nat /\ r = U64.wrap (targetPoint + Z.of_nat j * interval).
Proof.
  induction fuel as [| fuel IH]; intros tp r Htp H; cbn [advance] in H;
    destruct (Z.ltb_spec tp now) as [Hlt | Hge]; try discriminate.
  - injection H as <-. split; [lia |]. exists 0%nat. split; [lia |].
    cbn. rewrite Z.add_0_r. symmetry. apply U64Facts.wrap_small. exact Htp.
  - destruct (IH _ _ (U64Facts.wrap_range _) H) as [Hle [j [Hj Hr]]].
    split; [exact Hle |]. exists (S j). split; [lia |].
    rewrite Hr. unfold U64.add. rewrite U64Facts.wrap_add_wrap_l. f_equal. lia.
  - injection H as <-. split; [lia |]. exists 0%nat. split; [lia |].
    cbn. rewrite Z.add_0_r. symmetry. apply U64Facts.wrap_small. exact Htp.
Qed.

(** X3.  Whenever the loop [while ( targetPoint < now ) targetPoint += interval]
    ends, in either thread and whatever wrapped on the way, the point it
    ends on is not before [now] and is the starting point plus a whole number
    of intervals modulo [2^64]. *)
Theorem advance_ends_at_or_after_now (fuel : nat) (interval now targetPoint r : Z) :
  U64.in_range targetPoint ->
  advance fuel interval now targetPoint = Done r ->
  now <= r
  /\ exists j : nat, (j <= fuel)%nat /\ r = U64.wrap (targetPoint + Z.of_nat j * interval).
Proof. intros Htp H. exact (advance_exit fuel interval now targetPoint r Htp H). Qed.

Lemma advance_ends_at_or_after_now_witness :
  (U64.in_range 1995000000
   /\ advance 3 16666666 2030000000 1995000000 = Done 2044999998)
  /\ 2030000000 <= 2044999998.
Proof.
  assert (H1 : U64.in_range 1995000000) by (split; [lia | reflexivity]).
  assert (H2 : advance 3 16666666 2030000000 1995000000 = Done 2044999998)
    by reflexivity.
  split; [split; assumption |].
  exact (proj1 (advance_ends_at_or_after_now 3 16666666 2030000000 1995000000
                  2044999998 H1 H2)).
Defined.

Lemma advance_zero_interval (fuel : nat) (now targetPoint : Z) :
  U64.in_range targetPoint -> targetPoint < now ->
  advance fuel 0 now targetPoint = OutOfFuel.
Proof.
  intros Htp Hlt. induction fuel as [| fuel IH]; cbn [advance];
    destruct (Z.ltb_spec targetPoint now); try lia; [reflexivity |].
  unfold U64.add. rewrite Z.add_0_r, U64Facts.wrap_small by exact Htp. exact IH.
Qed.

(** Both intervals are [1'000'000'000ul / x] for an [int x]. *)
Lemma interval_cases (x : Z) :
  CInt.in_range x ->
  U64.div 1000000000 (U64.of_int x)
  = if x =? 0 then Undefined
    else if (x <? 0) || (1000000000 <? x) then Done 0
    else Done (1000000000 / x).
Proof.
  unfold CInt.in_range, CInt.int_min, CInt.int_max, U64.div, U64.of_int.
  intros Hx. pose proof U64Facts.modulus_eq as Hm.
  destruct (Z.eqb_spec x 0) as [-> | Hnz]; [reflexivity |].
  destruct (Z.ltb_spec x 0) as [Hneg | Hpos]; cbn [orb].
  - rewrite U64Facts.wrap_neg by lia.
    destruct (Z.eqb_spec (x + U64.modulus) 0); [lia |].
    f_equal. apply Z.div_small. lia.
  - rewrite U64Facts.wrap_small by (unfold U64.in_range; lia).
    destruct (Z.eqb_spec x 0); [lia |].
    destruct (Z.ltb_spec 1000000000 x); [| reflexivity].
    f_equal. apply Z.div_small. lia.
Qed.

(** X4.  The refresh interval of the predictor and the target interval of
    the limiter, for an [int] rate: no value for a rate of 0 (a division by
    zero), 0 for a negative rate, which turns into a huge [unsigned long],
    and for a rate above 1000000000, and [1000000000 / rate], at least 1,
    otherwise. *)
Theorem intervals_by_rate (rate : Z) :
  CInt.in_range rate ->
  Predictor.nsec_interval rate = Limiter.target_interval rate
  /\ (rate = 0 -> Predictor.nsec_interval rate = Undefined)
  /\ (rate < 0 \/ 1000000000 < rate -> Predictor.nsec_interval rate = Done 0)
  /\ (0 < rate <= 1000000000 ->
      Predictor.nsec_interval rate = Done (1000000000 / rate)
      /\ 1 <= 1000000000 / rate <= 1000000000).
Proof.
  intros Hr. unfold Predictor.nsec_interval, Limiter.target_interval.
  rewrite (interval_cases rate Hr).
  split; [reflexivity |]. split; [| split].
  - intros ->. reflexivity.
  - intros H. destruct (Z.eqb_spec rate 0); [lia |].
    destruct (Z.ltb_spec rate 0); [reflexivity |].
    destruct (Z.ltb_spec 1000000000 rate); [reflexivity | lia].
  - intros H. destruct (Z.eqb_spec rate 0); [lia |].
    destruct (Z.ltb_spec rate 0); [lia |].
    destruct (Z.ltb_spec 1000000000 rate); [lia |].
    split; [reflexivity |]. split.
    + apply Z.div_le_lower_bound; lia.
    + apply Z.div_le_upper_bound; lia.
Qed.

Lemma intervals_by_rate_witness :
  CInt.in_range (-60) /\ Predictor.nsec_interval (-60) = Done 0.
Proof.
  assert (H : CInt.in_range (-60)) by (split; intros C; discriminate C).
  split; [exact H |].
  exact (proj1 (proj2 (proj2 (intervals_by_rate (-60) H))) (or_introl eq_refl)).
Defined.

(** ** The turn of the predictor *)

Lemma nsec_interval_range (refresh nsecInterval : Z) :
  Predictor.nsec_interval refresh = Done nsecInterval ->
  0 <= nsecInterval <= 1000000000.
Proof.
  unfold Predictor.nsec_interval. intros H.
  apply (target_interval_range refresh). exact H.
Qed.

(** X5.  A refresh rate below 0 or above 1000000000 gives an interval of 0;
    the offset is then 0 as well, and when the last vblank is before the
    current time the loop of lines 109 and 110 adds 0 for ever: the turn
    never reaches its sleep, whatever the fuel. *)
Theorem predictor_hangs_without_interval (env : Predictor.cycle_env) :
  let refresh :=
    Predictor.select_refresh (Predictor.g_nNestedRefresh env)
      (Predictor.g_nOutputRefresh env) in
  CInt.in_range refresh ->
  refresh < 0 \/ 1000000000 < refresh ->
  U64.in_range (Predictor.g_lastVblank env) ->
  Predictor.g_lastVblank env < Predictor.clock_now env ->
  forall (fuel : nat) (rollingMax : Z),
    Predictor.vblank_cycle fuel env rollingMax = OutOfFuel.
Proof.
  intros refresh Hrange Hbad HG Hpast fuel rollingMax.
  unfold Predictor.vblank_cycle. fold refresh.
  unfold Predictor.nsec_interval. rewrite (interval_cases refresh Hrange).
  destruct (Z.eqb_spec refresh 0); [lia |].
  replace ((refresh <? 0) || (1000000000 <? refresh)) with true
    by (symmetry; apply orb_true_iff; rewrite Z.ltb_lt, Z.ltb_lt; exact Hbad).
  cbn [bind].
  rewrite draw_offset_clamp by lia.
  assert (Hoff : Z.min (U64.add
                          (Predictor.rolling_update
                             (Predictor.g_uVBlankRateOfDecayPercentage env) rollingMax
                             (Predictor.g_uVblankDrawTimeNS env))
                          (Predictor.g_uVblankDrawBufferRedZoneNS env)) (0 / 2) = 0).
  { pose proof (U64Facts.wrap_range
                  (Predictor.rolling_update
                     (Predictor.g_uVBlankRateOfDecayPercentage env) rollingMax
                     (Predictor.g_uVblankDrawTimeNS env)
                   + Predictor.g_uVblankDrawBufferRedZoneNS env)) as Hw.
    unfold U64.in_range in Hw. unfold U64.add. change (0 / 2) with 0. lia. }
  rewrite Hoff. unfold Predictor.wake_time, U64.sub, U64.add.
  rewrite Z.sub_0_r, (U64Facts.wrap_small _ HG), Z.add_0_r, (U64Facts.wrap_small _ HG).
  rewrite advance_zero_interval by assumption.
  reflexivity.
Qed.

Lemma predictor_hangs_without_interval_witness :
  let env := {| Predictor.g_uVBlankRateOfDecayPercentage := 93;
                Predictor.g_nNestedRefresh := 0;
                Predictor.g_nOutputRefresh := -1;
                Predictor.g_uVblankDrawTimeNS := 3000000;
                Predictor.g_uVblankDrawBufferRedZoneNS := 2000000;
                Predictor.g_lastVblank := 2000000000;
                Predictor.clock_now := 2000000500;
                Predictor.clock_after_sleep := 2000000900;
                Predictor.write_ret := 8 |} in
  Predictor.vblank_cycle 5 env 3000000 = OutOfFuel.
Proof.
  intros env.
  assert (H1 : CInt.in_range (-1)) by (split; intros C; discriminate C).
  assert (H2 : -1 < 0 \/ 1000000000 < -1) by (left; reflexivity).
  assert (H3 : U64.in_range 2000000000) by (split; [lia | reflexivity]).
  assert (H4 : 2000000000 < 2000000500) by reflexivity.
  exact (predictor_hangs_without_interval env H1 H2 H3 H4 5%nat 3000000).
Defined.

(** X6.  Every turn of the predictor that reaches its end made exactly three
    calls: a sleep until a point that is not before the time it read, the
    write to the pipe (a failure is only recorded), and a sleep for the
    offset plus 1ms.  The offset is at most half of the interval, so the
    second sleep is at most 501ms and its length does not wrap. *)
Theorem vblank_cycle_calls (fuel : nat) (env : Predictor.cycle_env)
    (rollingMax rollingMax' : Z) (evs : list Predictor.event) :
  Predictor.vblank_cycle fuel env rollingMax = Done (rollingMax', evs) ->
  exists nsecInterval targetPoint,
    let offset :=
      Predictor.draw_offset rollingMax' (Predictor.g_uVblankDrawBufferRedZoneNS env) in
    Predictor.nsec_interval
      (Predictor.select_refresh (Predictor.g_nNestedRefresh env)
         (Predictor.g_nOutputRefresh env)) = Done nsecInterval
    /\ evs = [Predictor.SleepUntil targetPoint;
              if Predictor.write_ret env <=? 0 then Predictor.PipeWriteFailed
              else Predictor.PipeWrite (Predictor.clock_after_sleep env);
              Predictor.SleepFor (offset + 1000000)]
    /\ Predictor.clock_now env <= targetPoint
    /\ 0 <= offset <= nsecInterval / 2
    /\ offset + 1000000 <= 501000000.
Proof.
  unfold Predictor.vblank_cycle. intros H.
  destruct (Predictor.nsec_interval _) as [I | |] eqn:HI; cbn [bind] in H; try discriminate.
  destruct (Predictor.wake_time _ _ _ _ _) as [tp | |] eqn:Hwake;
    cbn [bind] in H; try discriminate.
  injection H as <- <-.
  pose proof (nsec_interval_range _ _ HI) as HIr.
  exists I, tp. cbv zeta.
  rewrite draw_offset_clamp in * by lia.
  set (off := Z.min _ (I / 2)) in *.
  assert (Hoff : 0 <= off <= I / 2).
  { unfold off.
    pose proof (U64Facts.wrap_range
                  (Predictor.rolling_update
                     (Predictor.g_uVBlankRateOfDecayPercentage env) rollingMax
                     (Predictor.g_uVblankDrawTimeNS env)
                   + Predictor.g_uVblankDrawBufferRedZoneNS env)) as Hw.
    unfold U64.in_range in Hw. unfold U64.add.
    pose proof (Z.div_pos I 2 ltac:(lia) ltac:(lia)). lia. }
  assert (Hhalf : I / 2 <= 500000000) by (apply Z.div_le_upper_bound; lia).
  split; [reflexivity |].
  split.
  { pose proof U64Facts.modulus_eq.
    rewrite (U64Facts.add_small off 1000000) by lia. reflexivity. }
  split.
  { unfold Predictor.wake_time in Hwake.
    apply advance_exit in Hwake; [tauto | apply U64Facts.wrap_range]. }
  split; [exact Hoff | lia].
Qed.

Lemma vblank_cycle_calls_witness :
  let env := {| Predictor.g_uVBlankRateOfDecayPercentage := 93;
                Predictor.g_nNestedRefresh := 0;
                Predictor.g_nOutputRefresh := 60;
                Predictor.g_uVblankDrawTimeNS := 3000000;
                Predictor.g_uVblankDrawBufferRedZoneNS := 2000000;
                Predictor.g_lastVblank := 2000000000;
                Predictor.clock_now := 2010000000;
                Predictor.clock_after_sleep := 2011667000;
                Predictor.write_ret := 8 |} in
  Predictor.vblank_cycle 1 env 3000000
  = Done (3000000, [Predictor.SleepUntil 2011666666; Predictor.PipeWrite 2011667000;
                    Predictor.SleepFor 6000000])
  /\ exists nsecInterval,
       Predictor.nsec_interval 60 = Done nsecInterval
       /\ Predictor.draw_offset 3000000 2000000 <= nsecInterval / 2.
Proof.
  intros env.
  assert (Hrun : Predictor.vblank_cycle 1 env 3000000
                 = Done (3000000, [Predictor.SleepUntil 2011666666;
                                   Predictor.PipeWrite 2011667000;
                                   Predictor.SleepFor 6000000])) by reflexivity.
  split; [exact Hrun |].
  destruct (vblank_cycle_calls 1 env 3000000 _ _ Hrun) as [I [tp [HI [_ [_ [Hoff _]]]]]].
  exists I. split; [exact HI | exact (proj2 Hoff)].
Defined.

(** Started at or below [hi], with room for one more interval below [hi],
    the loop wraps nowhere and ends at or below [hi]. *)
Lemma advance_window (fuel : nat) (interval now hi : Z) :
  0 <= interval -> hi < U64.modulus -> now + interval - 1 <= hi ->
  forall targetPoint r,
    0 <= targetPoint <= hi ->
    advance fuel interval now targetPoint = Done r ->
    now <= r <= hi
    /\ exists j, 0 <= j /\ r = targetPoint + j * interval.
Proof.
  intros HI Hhi Hroom.
  induction fuel as [| fuel IH]; intros tp r Htp H; cbn [advance] in H;
    destruct (Z.ltb_spec tp now) as [Hlt | Hge]; try discriminate.
  - injection H as <-. split; [lia |]. exists 0. lia.
  - rewrite U64Facts.add_small in H by lia.
    destruct (IH (tp + interval) r ltac:(lia) H) as [Hr [j [Hj Hrj]]].
    split; [exact Hr |]. exists (j + 1). split; [lia |]. rewrite Hrj. lia.
  - injection H as <-. split; [lia |]. exists 0. lia.
Qed.

(** X7.  When [g_lastVblank - offset] is before the current time (and
    nothing wraps), the predictor sleeps for less than one refresh interval:
    the wake time is in [now, now + nsecInterval) and is [g_lastVblank - offset]
    plus at least one whole interval. *)
Theorem predictor_sleeps_less_than_interval (fuel : nat)
    (g_lastVblank offset nsecInterval now targetPoint : Z) :
  0 <= offset <= g_lastVblank ->
  g_lastVblank < U64.modulus ->
  0 <= nsecInterval ->
  g_lastVblank - offset < now ->
  now + nsecInterval <= U64.modulus ->
  Predictor.wake_time fuel g_lastVblank offset nsecInterval now = Done targetPoint ->
  now <= targetPoint < now + nsecInterval
  /\ exists k, 1 <= k /\ targetPoint = g_lastVblank - offset + k * nsecInterval.
Proof.
  intros Hoff HG HI Hpast Hroom Hwake.
  unfold Predictor.wake_time in Hwake.
  rewrite (U64Facts.sub_small g_lastVblank offset) in Hwake by lia.
  rewrite (U64Facts.add_small (g_lastVblank - offset) nsecInterval) in Hwake by lia.
  assert (Hhi : now + nsecInterval - 1 < U64.modulus) by lia.
  assert (Hle : now + nsecInterval - 1 <= now + nsecInterval - 1) by lia.
  assert (Hstart : 0 <= g_lastVblank - offset + nsecInterval <= now + nsecInterval - 1)
    by lia.
  destruct (advance_window fuel nsecInterval now (now + nsecInterval - 1)
              HI Hhi Hle _ _ Hstart Hwake) as [Hr [j [Hj Hrj]]].
  split; [lia |]. exists (j + 1). split; [lia |]. rewrite Hrj. lia.
Qed.

Lemma predictor_sleeps_less_than_interval_witness :
  (0 <= 5000000 <= 2000000000 /\ 2000000000 < U64.modulus /\ 0 <= 16666666
   /\ 2000000000 - 5000000 < 2030000000
   /\ 2030000000 + 16666666 <= U64.modulus
   /\ Predictor.wake_time 3 2000000000 5000000 16666666 2030000000 = Done 2044999998)
  /\ 2030000000 <= 2044999998 < 2030000000 + 16666666.
Proof.
  assert (H1 : 0 <= 5000000 <= 2000000000) by lia.
  assert (H2 : 2000000000 < U64.modulus) by reflexivity.
  assert (H3 : 0 <= 16666666) by lia.
  assert (H4 : 2000000000 - 5000000 < 2030000000) by lia.
  assert (H5 : 2030000000 + 16666666 <= U64.modulus) by (intros C; discriminate C).
  assert (H6 : Predictor.wake_time 3 2000000000 5000000 16666666 2030000000
               = Done 2044999998) by reflexivity.
  split; [repeat split; assumption |].
  exact (proj1 (predictor_sleeps_less_than_interval 3 2000000000 5000000 16666666
                  2030000000 2044999998 H1 H2 H3 H4 H5 H6)).
Defined.

(** ** The rolling estimate and the clamp, in closed form *)

(** X8.  Without overflow the new estimate lies between the draw time and
    the larger of the old estimate and the draw time.  The two ends of the
    decay range are the two ends of this interval: with [alpha = 0] the
    estimate is the last draw time, with [alpha = 100] it is a running
    maximum that never decays. *)
Theorem rolling_update_between (alpha rollingMax drawTime : Z) :
  0 <= alpha <= 100 ->
  0 <= rollingMax -> 0 <= drawTime ->
  100 * Z.max rollingMax drawTime < U64.modulus ->
  drawTime <= Predictor.rolling_update alpha rollingMax drawTime
           <= Z.max rollingMax drawTime
  /\ (alpha = 0 -> Predictor.rolling_update alpha rollingMax drawTime = drawTime)
  /\ (alpha = 100 ->
      Predictor.rolling_update alpha rollingMax drawTime = Z.max rollingMax drawTime).
Proof.
  intros Ha Hr Hd Hov.
  rewrite (rolling_update_exact alpha rollingMax drawTime Ha Hr Hd Hov).
  set (m := Z.max rollingMax drawTime) in *.
  assert (Hm : drawTime <= m) by (unfold m; lia).
  split; [split |]; [| | split].
  - apply Z.div_le_lower_bound; [lia | nia].
  - apply Z.div_le_upper_bound; [lia | nia].
  - intros ->. replace (0 * m + (100 - 0) * drawTime) with (drawTime * 100) by lia.
    apply Z.div_mul. lia.
  - intros ->. replace (100 * m + (100 - 100) * drawTime) with (m * 100) by lia.
    apply Z.div_mul. lia.
Qed.

Lemma rolling_update_between_witness :
  (0 <= 93 <= 100 /\ 0 <= 9000000 /\ 0 <= 3000000
   /\ 100 * Z.max 9000000 3000000 < U64.modulus)
  /\ 3000000 <= Predictor.rolling_update 93 9000000 3000000 <= Z.max 9000000 3000000.
Proof.
  assert (H1 : 0 <= 93 <= 100) by lia.
  assert (H2 : 0 <= 9000000) by lia.
  assert (H3 : 0 <= 3000000) by lia.
  assert (H4 : 100 * Z.max 9000000 3000000 < U64.modulus) by reflexivity.
  split; [repeat split; assumption |].
  exact (proj1 (rolling_update_between 93 9000000 3000000 H1 H2 H3 H4)).
Defined.

Lemma clamp_to_half_min (rollingMax redZone nsecInterval : Z) :
  0 <= rollingMax -> 0 <= redZone <= nsecInterval / 2 ->
  rollingMax + redZone < U64.modulus ->
  Predictor.clamp_to_half rollingMax redZone nsecInterval
  = Z.min rollingMax (nsecInterval / 2 - redZone).
Proof.
  intros Hr Hrz Hsum. unfold Predictor.clamp_to_half.
  rewrite (U64Facts.add_small rollingMax redZone) by lia.
  rewrite U64Facts.sub_small by lia. lia.
Qed.

(** X9.  With a red zone that fits into half of the interval the clamp of
    line 76 is [min(rollingMax, nsecInterval/2 - redZone)]: an estimate
    already below the limit is left alone, and clamping twice is clamping
    once. *)
Theorem clamp_to_half_closed_form (rollingMax redZone nsecInterval : Z) :
  0 <= rollingMax -> 0 <= redZone <= nsecInterval / 2 ->
  rollingMax + redZone < U64.modulus ->
  Predictor.clamp_to_half rollingMax redZone nsecInterval
  = Z.min rollingMax (nsecInterval / 2 - redZone)
  /\ (rollingMax + redZone <= nsecInterval / 2 ->
      Predictor.clamp_to_half rollingMax redZone nsecInterval = rollingMax)
  /\ Predictor.clamp_to_half
       (Predictor.clamp_to_half rollingMax redZone nsecInterval) redZone nsecInterval
     = Predictor.clamp_to_half rollingMax redZone nsecInterval.
Proof.
  intros Hr Hrz Hsum.
  rewrite (clamp_to_half_min rollingMax redZone nsecInterval Hr Hrz Hsum).
  split; [reflexivity |]. split; [lia |].
  rewrite clamp_to_half_min by lia. lia.
Qed.

Lemma clamp_to_half_closed_form_witness :
  (0 <= 9000000 /\ 0 <= 2000000 <= 16666666 / 2 /\ 9000000 + 2000000 < U64.modulus)
  /\ Predictor.clamp_to_half 9000000 2000000 16666666
     = Z.min 9000000 (16666666 / 2 - 2000000).
Proof.
  assert (H1 : 0 <= 9000000) by lia.
  assert (H2 : 0 <= 2000000 <= 16666666 / 2) by (split; intros C; discriminate C).
  assert (H3 : 9000000 + 2000000 < U64.modulus) by reflexivity.
  split; [repeat split; try assumption; apply H2 |].
  exact (proj1 (clamp_to_half_closed_form 9000000 2000000 16666666 H1 H2 H3)).
Defined.

(** X10.  With a red zone of at least half of the interval (and below
    [2^63]) the offset that the loop uses is exactly half of the interval,
    whatever the estimate and the draw time are: line 76 wraps round and line
    78 wraps back. *)
Theorem offset_pinned_by_large_red_zone (alpha rollingMax drawTime redZone nsecInterval : Z) :
  0 <= nsecInterval ->
  nsecInterval / 2 <= redZone < 2 ^ 63 ->
  Predictor.draw_offset
    (Predictor.next_rolling_max alpha rollingMax drawTime redZone nsecInterval) redZone
  = nsecInterval / 2.
Proof.
  intros HI Hrz. unfold Predictor.next_rolling_max.
  rewrite draw_offset_clamp by exact HI.
  destruct (rolling_update_range alpha rollingMax drawTime) as [Hu0 Hu1].
  pose proof U64Facts.modulus_eq as Hm.
  assert (H63 : 2 ^ 63 = 9223372036854775808) by reflexivity.
  pose proof (Z.div_pos nsecInterval 2 HI ltac:(lia)) as Hhalf.
  rewrite U64Facts.add_small by lia.
  lia.
Qed.

Lemma offset_pinned_by_large_red_zone_witness :
  (0 <= 3333333 /\ 3333333 / 2 <= 2000000 < 2 ^ 63)
  /\ Predictor.draw_offset
       (Predictor.next_rolling_max 93 3000000 3000000 2000000 3333333) 2000000
     = 3333333 / 2.
Proof.
  assert (H1 : 0 <= 3333333) by lia.
  assert (H2 : 3333333 / 2 <= 2000000 < 2 ^ 63)
    by (split; [intros C; discriminate C | reflexivity]).
  split; [split; assumption |].
  exact (offset_pinned_by_large_red_zone 93 3000000 3000000 2000000 3333333 H1 H2).
Defined.

(** ** The turn of the limiter *)

(** The call of line 193 never answers [true] for a target other than 0. *)
Lemma use_frame_callbacks_zero_count_false (g_nOutputRefresh nTargetFPS : Z) (b : bool) :
  nTargetFPS <> 0 ->
  fpslimit_use_frame_callbacks_for_focus_window g_nOutputRefresh nTargetFPS 0 = Done b ->
  b = false.
Proof.
  intros Hn. unfold fpslimit_use_frame_callbacks_for_focus_window, CInt.rem, CInt.quot.
  destruct (Z.eqb_spec nTargetFPS 0) as [| _]; [contradiction |].
  destruct (CInt.defined g_nOutputRefresh nTargetFPS); cbn [bind]; [| discriminate].
  destruct (Z.rem g_nOutputRefresh nTargetFPS =? 0); cbn [bind].
  - destruct (CInt.defined 0 (Z.quot g_nOutputRefresh nTargetFPS)); cbn [bind];
      [| discriminate].
    change (Z.rem 0 (Z.quot g_nOutputRefresh nTargetFPS)) with 0.
    cbn. intros H. injection H as <-. reflexivity.
  - intros H. injection H as <-. reflexivity.
Qed.

(** The calls of a finished turn: the fixed tail, after a sleep or not. *)
Lemma fpslimit_cycle_shape (fuel : nat) (env : Limiter.cycle_env) (nTargetFPS : Z)
    (frameInfo : Limiter.FrameInfo_t) (st st' : Limiter.locals)
    (evs : list Limiter.event) :
  Limiter.fpslimit_cycle fuel env nTargetFPS frameInfo st = Done (st', evs) ->
  exists targetInterval,
    Limiter.target_interval nTargetFPS = Done targetInterval
    /\ if Limiter.slow_frame
            (U64.sub (Limiter.clock_t1 env) (Limiter.lastCommitReleased st))
            targetInterval (Limiter.deviation st)
       then evs = release_calls
       else exists targetPoint,
              evs = Limiter.SleepUntil targetPoint :: release_calls
              /\ advance fuel targetInterval (Limiter.clock_now env)
                   (U64.sub
                      (U64.sub (U64.add (Limiter.clock_now env) targetInterval)
                         (Limiter.deviation st))
                      (U64.sub (Limiter.clock_t1 env) (Limiter.lastCommitReleased st)))
                 = Done targetPoint.
Proof.
  unfold Limiter.fpslimit_cycle. intros H.
  assert (Hn : nTargetFPS <> 0).
  { intros ->. cbn in H. discriminate H. }
  destruct (fpslimit_use_frame_callbacks_for_focus_window _ _ _) as [use | |] eqn:Huse;
    cbn [bind] in H; try discriminate.
  apply (use_frame_callbacks_zero_count_false _ _ _ Hn) in Huse. subst use.
  destruct (Limiter.target_interval nTargetFPS) as [ti | |];
    cbn [bind] in H; try discriminate.
  exists ti. split; [reflexivity |].
  destruct (Limiter.slow_frame _ ti _).
  - injection H as _ <-. reflexivity.
  - destruct (advance _ _ _ _) as [tp | |] eqn:Hadv; cbn [bind] in H; try discriminate.
    injection H as _ <-. exists tp. split; reflexivity.
Qed.

(** X11.  A turn of the limiter that reaches its end releases exactly one
    commit, and it always drives the frame callbacks itself: the release is
    followed by two frame-done calls and one nudge, for every target.  A slow
    frame makes these calls at once; any other frame sleeps first, until a
    point that is not before the time read on line 223. *)
Theorem fpslimit_cycle_calls (fuel : nat) (env : Limiter.cycle_env) (nTargetFPS : Z)
    (frameInfo : Limiter.FrameInfo_t) (st st' : Limiter.locals)
    (evs : list Limiter.event) :
  Limiter.fpslimit_cycle fuel env nTargetFPS frameInfo st = Done (st', evs) ->
  releases evs = 1%nat
  /\ exists targetInterval,
       Limiter.target_interval nTargetFPS = Done targetInterval
       /\ if Limiter.slow_frame
               (U64.sub (Limiter.clock_t1 env) (Limiter.lastCommitReleased st))
               targetInterval (Limiter.deviation st)
          then evs = release_calls
          else exists targetPoint,
                 evs = Limiter.SleepUntil targetPoint :: release_calls
                 /\ Limiter.clock_now env <= targetPoint.
Proof.
  intros H. destruct (fpslimit_cycle_shape _ _ _ _ _ _ _ H) as [ti [Hti Hshape]].
  split.
  - destruct (Limiter.slow_frame _ ti _).
    + subst evs. reflexivity.
    + destruct Hshape as [tp [-> _]]. reflexivity.
  - exists ti. split; [exact Hti |].
    destruct (Limiter.slow_frame _ ti _); [exact Hshape |].
    destruct Hshape as [tp [Hevs Hadv]]. exists tp. split; [exact Hevs |].
    apply advance_exit in Hadv; [tauto | apply U64Facts.wrap_range].
Qed.

Lemma fpslimit_cycle_calls_witness :
  let st := {| Limiter.deviation := 0; Limiter.lastFrameCount := 0;
               Limiter.lastCommitReleased := 1000000000 |} in
  let env := {| Limiter.g_nOutputRefresh := 60;
                Limiter.clock_t1 := 1020000000; Limiter.clock_now := 1020000100;
                Limiter.clock_wake := 1020000200;
                Limiter.clock_released := 1020000300 |} in
  let fi := {| Limiter.lastFrame := 1000000000; Limiter.currentFrame := 1004000000;
               Limiter.frameCount := 1 |} in
  exists st',
    Limiter.fpslimit_cycle 0 env 60 fi st = Done (st', release_calls)
    /\ releases release_calls = 1%nat.
Proof.
  intros st env fi.
  eexists.
  assert (Hrun : Limiter.fpslimit_cycle 0 env 60 fi st
                 = Done ({| Limiter.deviation := 0; Limiter.lastFrameCount := 1;
                            Limiter.lastCommitReleased := 1020000300 |}, release_calls))
    by (vm_compute; reflexivity).
  split; [exact Hrun |].
  exact (proj1 (fpslimit_cycle_calls 0 env 60 fi st _ _ Hrun)).
Defined.

(** The sleep branch with every quantity in its ordinary range. *)
Lemma fpslimit_cycle_sleep_target (fuel : nat) (env : Limiter.cycle_env) (nTargetFPS : Z)
    (frameInfo : Limiter.FrameInfo_t) (st st' : Limiter.locals)
    (targetPoint : Z) (evs : list Limiter.event) :
  0 < nTargetFPS <= CInt.int_max ->
  0 <= Limiter.deviation st <= 1000000000 / nTargetFPS / 16 ->
  0 <= Limiter.lastCommitReleased st <= Limiter.clock_t1 env ->
  Limiter.clock_t1 env <= Limiter.clock_now env ->
  Limiter.clock_now env + 2000000000 < U64.modulus ->
  Limiter.fpslimit_cycle fuel env nTargetFPS frameInfo st
  = Done (st', Limiter.SleepUntil targetPoint :: evs) ->
  Limiter.clock_now env + 1000000000 / nTargetFPS - Limiter.deviation st
    - (Limiter.clock_t1 env - Limiter.lastCommitReleased st) <= targetPoint
  /\ Limiter.clock_now env <= targetPoint
     <= Limiter.clock_now env + 1000000000 / nTargetFPS
  /\ Limiter.deviation st'
     = Limiter.update_deviation (Limiter.deviation st)
         (U64.sub (Limiter.clock_wake env) (Limiter.lastCommitReleased st))
         (1000000000 / nTargetFPS).
Proof.
  intros Hn Hdev Ht0 Ht1 Hnow Hrun.
  pose proof U64Facts.modulus_eq as Hm.
  unfold CInt.int_max in Hn.
  destruct (fpslimit_cycle_shape _ _ _ _ _ _ _ Hrun) as [ti [Hti Hshape]].
  destruct (fpslimit_cycle_inv _ _ _ _ _ _ _ Hrun) as [ti' [Hti' [_ [_ Hd]]]].
  rewrite target_interval_positive_target in Hti, Hti' by lia.
  injection Hti as <-. injection Hti' as <-.
  cbv zeta in Hd.
  set (ti := 1000000000 / nTargetFPS) in *.
  assert (Htir : 0 <= ti <= 1000000000).
  { unfold ti. split; [apply Z.div_pos; lia | apply Z.div_le_upper_bound; nia]. }
  assert (H16 : ti / 16 * 16 <= ti).
  { pose proof (Z.mul_div_le ti 16 ltac:(lia)). lia. }
  destruct (Limiter.slow_frame _ ti _); [discriminate Hshape |].
  destruct Hshape as [tp [Hevs Hadv]]. injection Hevs as <- _.
  set (dev := Limiter.deviation st) in *.
  set (t0 := Limiter.lastCommitReleased st) in *.
  set (t1 := Limiter.clock_t1 env) in *.
  set (now := Limiter.clock_now env) in *.
  rewrite (U64Facts.sub_small t1 t0) in Hadv by lia.
  rewrite (U64Facts.add_small now ti) in Hadv by lia.
  rewrite (U64Facts.sub_small (now + ti) dev) in Hadv by lia.
  rewrite (U64Facts.sub_small (now + ti - dev) (t1 - t0)) in Hadv by lia.
  assert (Hhi : now + ti < U64.modulus) by lia.
  assert (Hroom : now + ti - 1 <= now + ti) by lia.
  assert (Hstart : 0 <= now + ti - dev - (t1 - t0) <= now + ti) by lia.
  destruct (advance_window fuel ti now (now + ti) ltac:(lia) Hhi Hroom _ _ Hstart Hadv)
    as [Hr [j [Hj Hrj]]].
  split; [nia |]. split; [exact Hr | exact Hd].
Qed.

(** X12.  The sleep of the limiter is bounded: with a positive target, a
    clock that does not run backwards and a deviation within its bound, the
    point handed to [sleep_until_nanos] is at most one target interval after
    the time read on line 223, and not before it. *)
Theorem limiter_sleeps_at_most_one_interval (fuel : nat) (env : Limiter.cycle_env)
    (nTargetFPS : Z) (frameInfo : Limiter.FrameInfo_t) (st st' : Limiter.locals)
    (targetPoint : Z) (evs : list Limiter.event) :
  0 < nTargetFPS <= CInt.int_max ->
  0 <= Limiter.deviation st <= 1000000000 / nTargetFPS / 16 ->
  0 <= Limiter.lastCommitReleased st <= Limiter.clock_t1 env ->
  Limiter.clock_t1 env <= Limiter.clock_now env ->
  Limiter.clock_now env + 2000000000 < U64.modulus ->
  Limiter.fpslimit_cycle fuel env nTargetFPS frameInfo st
  = Done (st', Limiter.SleepUntil targetPoint :: evs) ->
  Limiter.clock_now env <= targetPoint
    <= Limiter.clock_now env + 1000000000 / nTargetFPS.
Proof.
  intros Hn Hdev Ht0 Ht1 Hnow Hrun.
  exact (proj1 (proj2 (fpslimit_cycle_sleep_target _ _ _ _ _ _ _ _
                         Hn Hdev Ht0 Ht1 Hnow Hrun))).
Qed.

(** X13.  If, in addition, the sleep does not return before the point it was
    given, line 235 does not wrap: the new deviation is
    [min(deviation + frameTime - targetInterval, targetInterval / 16)] with a
    first argument that is not negative. *)
Theorem precise_sleep_keeps_deviation_exact (fuel : nat) (env : Limiter.cycle_env)
    (nTargetFPS : Z) (frameInfo : Limiter.FrameInfo_t) (st st' : Limiter.locals)
    (targetPoint : Z) (evs : list Limiter.event) :
  0 < nTargetFPS <= CInt.int_max ->
  0 <= Limiter.deviation st <= 1000000000 / nTargetFPS / 16 ->
  0 <= Limiter.lastCommitReleased st <= Limiter.clock_t1 env ->
  Limiter.clock_t1 env <= Limiter.clock_now env ->
  Limiter.clock_now env + 2000000000 < U64.modulus ->
  Limiter.fpslimit_cycle fuel env nTargetFPS frameInfo st
  = Done (st', Limiter.SleepUntil targetPoint :: evs) ->
  targetPoint <= Limiter.clock_wake env < U64.modulus ->
  let frameTime := Limiter.clock_wake env - Limiter.lastCommitReleased st in
  0 <= Limiter.deviation st + frameTime - 1000000000 / nTargetFPS
  /\ Limiter.deviation st'
     = Z.min (Limiter.deviation st + frameTime - 1000000000 / nTargetFPS)
         (1000000000 / nTargetFPS / 16).
Proof.
  intros Hn Hdev Ht0 Ht1 Hnow Hrun Hwake frameTime.
  destruct (fpslimit_cycle_sleep_target _ _ _ _ _ _ _ _ Hn Hdev Ht0 Ht1 Hnow Hrun)
    as [Hlow [Hwin Hd]].
  pose proof U64Facts.modulus_eq as Hm.
  unfold CInt.int_max in Hn.
  set (ti := 1000000000 / nTargetFPS) in *.
  assert (Htir : 0 <= ti <= 1000000000).
  { unfold ti. split; [apply Z.div_pos; lia | apply Z.div_le_upper_bound; nia]. }
  assert (H16 : ti / 16 * 16 <= ti).
  { pose proof (Z.mul_div_le ti 16 ltac:(lia)). lia. }
  assert (Hpos : 0 <= Limiter.deviation st + frameTime - ti) by (unfold frameTime; lia).
  split; [exact Hpos |].
  rewrite Hd. unfold Limiter.update_deviation.
  rewrite (U64Facts.sub_small (Limiter.clock_wake env)) by lia.
  fold frameTime.
  replace (U64.add (Limiter.deviation st) (U64.sub frameTime ti))
    with (Limiter.deviation st + frameTime - ti); [reflexivity |].
  unfold U64.add, U64.sub, U64.wrap.
  rewrite Zplus_mod_idemp_r.
  replace (Limiter.deviation st + (frameTime - ti))
    with (Limiter.deviation st + frameTime - ti) by lia.
  symmetry. apply Z.mod_small. unfold frameTime in *. fold U64.modulus. lia.
Qed.

(** Closed comparisons of integers, by computation. *)
Ltac closed_comparison :=
  vm_compute; repeat split; try reflexivity; try (let C := fresh in intros C; discriminate C).

Lemma limiter_sleeps_at_most_one_interval_witness :
  let st := {| Limiter.deviation := 0; Limiter.lastFrameCount := 0;
               Limiter.lastCommitReleased := 1000000000 |} in
  let env := {| Limiter.g_nOutputRefresh := 60;
                Limiter.clock_t1 := 1005000000; Limiter.clock_now := 1005000100;
                Limiter.clock_wake := 1016700000;
                Limiter.clock_released := 1016700200 |} in
  let fi := {| Limiter.lastFrame := 1000000000; Limiter.currentFrame := 1004000000;
               Limiter.frameCount := 1 |} in
  exists st',
    Limiter.fpslimit_cycle 1 env 60 fi st
    = Done (st', Limiter.SleepUntil 1016666766 :: release_calls)
    /\ 1005000100 <= 1016666766 <= 1005000100 + 1000000000 / 60.
Proof.
  intros st env fi. eexists.
  assert (Hrun : Limiter.fpslimit_cycle 1 env 60 fi st
                 = Done ({| Limiter.deviation := 33334; Limiter.lastFrameCount := 1;
                            Limiter.lastCommitReleased := 1016700200 |},
                         Limiter.SleepUntil 1016666766 :: release_calls))
    by (vm_compute; reflexivity).
  split; [exact Hrun |].
  assert (H1 : 0 < 60 <= CInt.int_max) by closed_comparison.
  assert (H2 : 0 <= Limiter.deviation st <= 1000000000 / 60 / 16) by closed_comparison.
  assert (H3 : 0 <= Limiter.lastCommitReleased st <= Limiter.clock_t1 env)
    by closed_comparison.
  assert (H4 : Limiter.clock_t1 env <= Limiter.clock_now env) by closed_comparison.
  assert (H5 : Limiter.clock_now env + 2000000000 < U64.modulus) by closed_comparison.
  exact (limiter_sleeps_at_most_one_interval 1 env 60 fi st _ _ _ H1 H2 H3 H4 H5 Hrun).
Defined.

Lemma precise_sleep_keeps_deviation_exact_witness :
  let st := {| Limiter.deviation := 0; Limiter.lastFrameCount := 0;
               Limiter.lastCommitReleased := 1000000000 |} in
  let env := {| Limiter.g_nOutputRefresh := 60;
                Limiter.clock_t1 := 1005000000; Limiter.clock_now := 1005000100;
                Limiter.clock_wake := 1016700000;
                Limiter.clock_released := 1016700200 |} in
  let fi := {| Limiter.lastFrame := 1000000000; Limiter.currentFrame := 1004000000;
               Limiter.frameCount := 1 |} in
  exists st',
    Limiter.fpslimit_cycle 1 env 60 fi st
    = Done (st', Limiter.SleepUntil 1016666766 :: release_calls)
    /\ 1016666766 <= Limiter.clock_wake env < U64.modulus
    /\ Limiter.deviation st'
       = Z.min (0 + (1016700000 - 1000000000) - 1000000000 / 60) (1000000000 / 60 / 16).
Proof.
  intros st env fi. eexists.
  assert (Hrun : Limiter.fpslimit_cycle 1 env 60 fi st
                 = Done ({| Limiter.deviation := 33334; Limiter.lastFrameCount := 1;
                            Limiter.lastCommitReleased := 1016700200 |},
                         Limiter.SleepUntil 1016666766 :: release_calls))
    by (vm_compute; reflexivity).
  split; [exact Hrun |].
  assert (H1 : 0 < 60 <= CInt.int_max) by closed_comparison.
  assert (H2 : 0 <= Limiter.deviation st <= 1000000000 / 60 / 16) by closed_comparison.
  assert (H3 : 0 <= Limiter.lastCommitReleased st <= Limiter.clock_t1 env)
    by closed_comparison.
  assert (H4 : Limiter.clock_t1 env <= Limiter.clock_now env) by closed_comparison.
  assert (H5 : Limiter.clock_now env + 2000000000 < U64.modulus) by closed_comparison.
  assert (H6 : 1016666766 <= Limiter.clock_wake env < U64.modulus) by closed_comparison.
  split; [exact H6 |].
  exact (proj2 (precise_sleep_keeps_deviation_exact 1 env 60 fi st _ _ _
                  H1 H2 H3 H4 H5 Hrun H6)).
Defined.

(** X14.  With a positive target, a refresh rate other than 0, a clock that
    does not run backwards and stays far below [2^64], a frame time below
    [2^64 / 100] and a deviation within its bound, the turn of the limiter
    ends, and one pass through the catch-up loop is enough for it. *)
Theorem limiter_turn_ends_in_one_pass (fuel : nat) (env : Limiter.cycle_env)
    (nTargetFPS : Z) (frameInfo : Limiter.FrameInfo_t) (st : Limiter.locals) :
  0 < nTargetFPS <= CInt.int_max ->
  Limiter.g_nOutputRefresh env <> 0 ->
  0 <= Limiter.deviation st <= 1000000000 / nTargetFPS / 16 ->
  0 <= Limiter.lastCommitReleased st <= Limiter.clock_t1 env ->
  100 * (Limiter.clock_t1 env - Limiter.lastCommitReleased st) < U64.modulus ->
  Limiter.clock_t1 env <= Limiter.clock_now env ->
  Limiter.clock_now env + 2000000000 < U64.modulus ->
  exists st' evs,
    Limiter.fpslimit_cycle (S fuel) env nTargetFPS frameInfo st = Done (st', evs)
    /\ releases evs = 1%nat.
Proof.
  intros Hn Hrefresh Hdev Ht0 Hft Ht1 Hnow.
  destruct (fpslimit_cycle_completes fuel env nTargetFPS frameInfo st
              Hn Hrefresh Hdev Ht0 Hft Ht1 Hnow) as [[st' evs] Hrun].
  exists st', evs. split; [exact Hrun |].
  destruct (fpslimit_cycle_shape _ _ _ _ _ _ _ Hrun) as [ti [_ Hshape]].
  destruct (Limiter.slow_frame _ ti _); [subst evs; reflexivity |].
  destruct Hshape as [tp [-> _]]. reflexivity.
Qed.

Lemma limiter_turn_ends_in_one_pass_witness :
  let st := {| Limiter.deviation := 0; Limiter.lastFrameCount := 0;
               Limiter.lastCommitReleased := 1000000000 |} in
  let env := {| Limiter.g_nOutputRefresh := 60;
                Limiter.clock_t1 := 1016900000; Limiter.clock_now := 1016900100;
                Limiter.clock_wake := 1033400000;
                Limiter.clock_released := 1033400200 |} in
  let fi := {| Limiter.lastFrame := 1000000000; Limiter.currentFrame := 1004000000;
               Limiter.frameCount := 1 |} in
  exists r, Limiter.fpslimit_cycle 1 env 60 fi st = Done r.
Proof.
  intros st env fi.
  assert (H1 : 0 < 60 <= CInt.int_max) by closed_comparison.
  assert (H0 : Limiter.g_nOutputRefresh env <> 0) by closed_comparison.
  assert (H2 : 0 <= Limiter.deviation st <= 1000000000 / 60 / 16) by closed_comparison.
  assert (H3 : 0 <= Limiter.lastCommitReleased st <= Limiter.clock_t1 env)
    by closed_comparison.
  assert (Hft : 100 * (Limiter.clock_t1 env - Limiter.lastCommitReleased st)
                < U64.modulus) by closed_comparison.
  assert (H4 : Limiter.clock_t1 env <= Limiter.clock_now env) by closed_comparison.
  assert (H5 : Limiter.clock_now env + 2000000000 < U64.modulus) by closed_comparison.
  destruct (limiter_turn_ends_in_one_pass 0 env 60 fi st H1 H0 H2 H3 Hft H4 H5)
    as [st' [evs [Hrun _]]].
  exists (st', evs). exact Hrun.
Defined.

Example fpslimit_cycle_second_pass :
  let st := {| Limiter.deviation := 0; Limiter.lastFrameCount := 0;
               Limiter.lastCommitReleased := 1000000000 |} in
  let env := {| Limiter.g_nOutputRefresh := 60;
                Limiter.clock_t1 := 1016900000; Limiter.clock_now := 1016900100;
                Limiter.clock_wake := 1033400000;
                Limiter.clock_released := 1033400200 |} in
  let fi := {| Limiter.lastFrame := 1000000000; Limiter.currentFrame := 1004000000;
               Limiter.frameCount := 1 |} in
  Limiter.fpslimit_cycle 0 env 60 fi st = OutOfFuel
  /\ exists st', Limiter.fpslimit_cycle 1 env 60 fi st
                 = Done (st', Limiter.SleepUntil 1033333432 :: release_calls).
Proof. split; [reflexivity | eexists; vm_compute; reflexivity]. Qed.

(** ** Releases and frames *)

Lemma releases_app (l1 l2 : list Limiter.event) :
  releases (l1 ++ l2) = (releases l1 + releases l2)%nat.
Proof. unfold releases. rewrite filter_app, length_app. reflexivity. Qed.

Lemma step_counts (a : Limiter.action) (s s' : Limiter.system) :
  reachable_inv s ->
  Limiter.step a s = Done s' ->
  releases (Limiter.log s) = length (Limiter.processed s) ->
  Forall (fun c => 1 <= c) (Limiter.processed s) ->
  releases (Limiter.log s') = length (Limiter.processed s')
  /\ Forall (fun c => 1 <= c) (Limiter.processed s').
Proof.
  intros [Hlast Hsnap _ _] Hstep Hrel Hpos.
  destruct a as [now | n | | fuel env]; cbn in Hstep.
  - injection Hstep as <-. split; assumption.
  - injection Hstep as <-. split; assumption.
  - destruct (Limiter.at_pc s); [destruct (Limiter.wait_predicate _ _) |];
      injection Hstep as <-; split; assumption.
  - destruct (Limiter.at_pc s) as [| n fi]; [injection Hstep as <-; split; assumption |].
    destruct (Limiter.fpslimit_cycle fuel env n fi (Limiter.loc s))
      as [[st' evs] | |] eqn:Hcycle; cbn [bind] in Hstep; try discriminate.
    injection Hstep as <-. cbn [Limiter.log Limiter.processed fst snd].
    destruct (fpslimit_cycle_shape _ _ _ _ _ _ _ Hcycle) as [ti [_ Hshape]].
    assert (Hone : releases evs = 1%nat).
    { destruct (Limiter.slow_frame _ ti _); [subst evs; reflexivity |].
      destruct Hshape as [tp [-> _]]. reflexivity. }
    split.
    + rewrite releases_app, Hone, Hrel. cbn [length]. lia.
    + constructor; [lia | exact Hpos].
Qed.

Lemma run_counts (acts : list Limiter.action) :
  forall s s',
    reachable_inv s ->
    Limiter.frameCount (Limiter.g_FrameInfo (Limiter.sh s))
      + Z.of_nat (Limiter.marks acts) < U64.modulus ->
    Limiter.run acts s = Done s' ->
    releases (Limiter.log s) = length (Limiter.processed s) ->
    Forall (fun c => 1 <= c) (Limiter.processed s) ->
    releases (Limiter.log s') = length (Limiter.processed s')
    /\ Forall (fun c => 1 <= c) (Limiter.processed s').
Proof.
  induction acts as [| a acts IH]; intros s s' Hinv Hroom Hrun Hrel Hpos.
  - cbn in Hrun. injection Hrun as <-. split; assumption.
  - cbn [Limiter.run] in Hrun. rewrite marks_cons in Hroom.
    destruct (Limiter.step a s) as [s1 | |] eqn:Hstep; cbn [bind] in Hrun; try discriminate.
    destruct (step_inv a s s1 Hinv ltac:(lia) Hstep) as [Hinv1 Hfc1].
    destruct (step_counts a s s1 Hinv Hstep Hrel Hpos) as [Hrel1 Hpos1].
    apply (IH s1 s' Hinv1 ltac:(lia) Hrun Hrel1 Hpos1).
Qed.

(** A strictly decreasing list of integers between 1 and [m] has at most [m]
    elements. *)
Lemma sorted_length_bound (l : list Z) :
  StronglySorted Z.gt l ->
  Forall (fun c => 1 <= c) l ->
  forall m, 0 <= m -> Forall (fun c => c <= m) l -> Z.of_nat (length l) <= m.
Proof.
  induction 1 as [| a l Hs IH Hall]; intros Hpos m Hm Hle.
  - cbn. lia.
  - inversion Hpos as [| ? ? Ha Hpos']; subst.
    inversion Hle as [| ? ? Hma Hle']; subst.
    assert (Hbelow : Forall (fun c => c <= a - 1) l).
    { eapply Forall_impl; [| exact Hall]. cbn. intros c Hc. lia. }
    specialize (IH Hpos' (a - 1) ltac:(lia) Hbelow).
    cbn [length]. lia.
Qed.

(** X15.  From start-up on, and as long as [frameCount] has not wrapped, the
    limiter has released exactly one commit for every turn it finished, and
    never more commits than frames were marked: a commit is released only
    for a frame count that the limiter has not measured before. *)
Theorem releases_bounded_by_frames (ta tb tc : Z)
    (acts : list Limiter.action) (s : Limiter.system) :
  Z.of_nat (Limiter.marks acts) < U64.modulus ->
  Limiter.run acts (Limiter.fpslimit_init ta tb tc) = Done s ->
  releases (Limiter.log s) = length (Limiter.processed s)
  /\ Z.of_nat (releases (Limiter.log s)) <= Limiter.lastFrameCount (Limiter.loc s)
  /\ Z.of_nat (releases (Limiter.log s)) <= Z.of_nat (Limiter.marks acts).
Proof.
  intros Hroom Hrun.
  pose proof U64Facts.modulus_eq as Hm.
  destruct (run_inv acts _ s (fpslimit_init_inv ta tb tc) ltac:(cbn; lia) Hrun)
    as [[Hlast _ Hsorted Hbelow] Hfc].
  cbn in Hfc.
  destruct (run_counts acts _ s (fpslimit_init_inv ta tb tc) ltac:(cbn; lia) Hrun
              eq_refl (Forall_nil _)) as [Hrel Hpos].
  pose proof (sorted_length_bound _ Hsorted Hpos _ (proj1 Hlast) Hbelow) as Hlen.
  split; [exact Hrel |]. rewrite Hrel. split; lia.
Qed.

Lemma releases_bounded_by_frames_witness :
  let env1 := {| Limiter.g_nOutputRefresh := 60;
                 Limiter.clock_t1 := 250; Limiter.clock_now := 260;
                 Limiter.clock_wake := 16667000; Limiter.clock_released := 16667100 |} in
  let acts := [Limiter.CallSetTarget 60; Limiter.LimiterWake;
               Limiter.CallMarkFrame 200; Limiter.CallMarkFrame 300;
               Limiter.LimiterWake; Limiter.LimiterBody 1 env1;
               Limiter.LimiterWake; Limiter.LimiterBody 1 env1] in
  exists s,
    (Z.of_nat (Limiter.marks acts) < U64.modulus
     /\ Limiter.run acts (Limiter.fpslimit_init 100 101 102) = Done s)
    /\ releases (Limiter.log s) = 1%nat
    /\ Z.of_nat (releases (Limiter.log s)) <= Z.of_nat (Limiter.marks acts).
Proof.
  intros env1 acts.
  assert (Hrun : exists s, Limiter.run acts (Limiter.fpslimit_init 100 101 102) = Done s)
    by (vm_compute; eexists; reflexivity).
  destruct Hrun as [s Hrun].
  assert (H1 : Z.of_nat (Limiter.marks acts) < U64.modulus) by reflexivity.
  exists s. split; [split; assumption |].
  destruct (releases_bounded_by_frames 100 101 102 acts s H1 Hrun) as [_ [_ Hle]].
  split; [| exact Hle].
  vm_compute in Hrun. injection Hrun as <-. reflexivity.
Defined.

(** X16.  The wait never hands the turn a target of 0 or a frame it has
    measured already: in every state reached inside a turn the snapshot has
    a target other than 0 and a frame count above [lastFrameCount], so for
    an [int] target the division of line 195 is defined. *)
Theorem turn_snapshot_is_fresh (ta tb tc : Z) (acts : list Limiter.action)
    (s : Limiter.system) (nTargetFPS : Z) (frameInfo : Limiter.FrameInfo_t) :
  Z.of_nat (Limiter.marks acts) < U64.modulus ->
  Limiter.run acts (Limiter.fpslimit_init ta tb tc) = Done s ->
  Limiter.at_pc s = Limiter.InCycle nTargetFPS frameInfo ->
  nTargetFPS <> 0
  /\ Limiter.lastFrameCount (Limiter.loc s) < Limiter.frameCount frameInfo
     <= Z.of_nat (Limiter.marks acts)
  /\ (CInt.in_range nTargetFPS ->
      exists targetInterval,
        Limiter.target_interval nTargetFPS = Done targetInterval
        /\ 0 <= targetInterval <= 1000000000).
Proof.
  intros Hroom Hrun Hpc.
  pose proof U64Facts.modulus_eq as Hm.
  destruct (run_inv acts _ s (fpslimit_init_inv ta tb tc) ltac:(cbn; lia) Hrun)
    as [[_ Hsnap _ _] Hfc].
  cbn in Hfc. rewrite Hpc in Hsnap. destruct Hsnap as [Hn Hcount].
  split; [exact Hn |]. split; [lia |].
  intros Hrange. unfold Limiter.target_interval.
  rewrite (interval_cases nTargetFPS Hrange).
  destruct (Z.eqb_spec nTargetFPS 0); [contradiction |].
  destruct ((nTargetFPS <? 0) || (1000000000 <? nTargetFPS)) eqn:Hcase.
  - exists 0. split; [reflexivity | lia].
  - apply orb_false_iff in Hcase. destruct Hcase as [H1 H2].
    apply Z.ltb_ge in H1, H2.
    exists (1000000000 / nTargetFPS). split; [reflexivity |]. split.
    + apply Z.div_pos; lia.
    + apply Z.div_le_upper_bound; nia.
Qed.

Lemma turn_snapshot_is_fresh_witness :
  let acts := [Limiter.CallSetTarget 60; Limiter.CallMarkFrame 200;
               Limiter.LimiterWake] in
  exists s fi,
    (Z.of_nat (Limiter.marks acts) < U64.modulus
     /\ Limiter.run acts (Limiter.fpslimit_init 100 101 102) = Done s
     /\ Limiter.at_pc s = Limiter.InCycle 60 fi)
    /\ 60 <> 0
    /\ Limiter.lastFrameCount (Limiter.loc s) < Limiter.frameCount fi.
Proof.
  intros acts.
  eexists. eexists.
  assert (Hrun : Limiter.run acts (Limiter.fpslimit_init 100 101 102)
                 = Done {| Limiter.sh :=
                             {| Limiter.g_nFpsLimitTargetFPS := 60;
                                Limiter.g_FrameInfo :=
                                  {| Limiter.lastFrame := 101;
                                     Limiter.currentFrame := 200;
                                     Limiter.frameCount := 1 |} |};
                           Limiter.loc :=
                             {| Limiter.deviation := 0; Limiter.lastFrameCount := 0;
                                Limiter.lastCommitReleased := 102 |};
                           Limiter.at_pc :=
                             Limiter.InCycle 60
                               {| Limiter.lastFrame := 101; Limiter.currentFrame := 200;
                                  Limiter.frameCount := 1 |};
                           Limiter.log := [];
                           Limiter.processed := [] |}) by (vm_compute; reflexivity).
  assert (H1 : Z.of_nat (Limiter.marks acts) < U64.modulus) by reflexivity.
  split; [split; [exact H1 | split; [exact Hrun | reflexivity]] |].
  destruct (turn_snapshot_is_fresh 100 101 102 acts _ 60 _ H1 Hrun eq_refl)
    as [Hn [Hfresh _]].
  split; [exact Hn | exact (proj1 Hfresh)].
Defined.

(** ** A whole turn of the estimate *)

(** X17.  Lines 72 and 76 together, with a red zone that fits into half of
    the interval and no overflow: the new estimate is the updated one cut at
    [nsecInterval/2 - redZone], so it lies between
    [min(drawTime, nsecInterval/2 - redZone)] and [max(rollingMax, drawTime)].
    When the last draw time plus the red zone fits into half of the interval
    the offset covers them, and an estimate equal to a draw time that fits
    stays where it is. *)
Theorem next_rolling_max_covers_draw_time
    (alpha rollingMax drawTime redZone nsecInterval : Z) :
  0 <= alpha <= 100 ->
  0 <= rollingMax -> 0 <= drawTime ->
  100 * Z.max rollingMax drawTime < U64.modulus ->
  0 <= redZone <= nsecInterval / 2 ->
  nsecInterval < U64.modulus ->
  let rollingMax' :=
    Predictor.next_rolling_max alpha rollingMax drawTime redZone nsecInterval in
  rollingMax'
  = Z.min (Predictor.rolling_update alpha rollingMax drawTime) (nsecInterval / 2 - redZone)
  /\ Z.min drawTime (nsecInterval / 2 - redZone) <= rollingMax'
     <= Z.max rollingMax drawTime
  /\ (drawTime + redZone <= nsecInterval / 2 ->
      drawTime + redZone <= Predictor.draw_offset rollingMax' redZone
      /\ (rollingMax = drawTime -> rollingMax' = drawTime)).
Proof.
  intros Ha Hr Hd Hov Hrz HI. cbv zeta. unfold Predictor.next_rolling_max.
  destruct (rolling_update_range alpha rollingMax drawTime) as [Hu0 Hu1].
  pose proof U64Facts.modulus_eq as Hm.
  assert (Hbetween : drawTime <= Predictor.rolling_update alpha rollingMax drawTime
                     <= Z.max rollingMax drawTime).
  { rewrite (rolling_update_exact alpha rollingMax drawTime Ha Hr Hd Hov).
    split.
    - apply Z.div_le_lower_bound; [lia | nia].
    - apply Z.div_le_upper_bound; [lia | nia]. }
  assert (Hhalf : nsecInterval / 2 * 2 <= nsecInterval).
  { pose proof (Z.mul_div_le nsecInterval 2 ltac:(lia)). lia. }
  set (u := Predictor.rolling_update alpha rollingMax drawTime) in *.
  assert (Hclamp : Predictor.clamp_to_half u redZone nsecInterval
                   = Z.min u (nsecInterval / 2 - redZone)).
  { apply clamp_to_half_min; lia. }
  rewrite Hclamp.
  split; [reflexivity |]. split; [lia |].
  intros Hfit. split.
  - unfold Predictor.draw_offset. rewrite U64Facts.add_small by lia. lia.
  - intros ->. rewrite Z.max_id in *. lia.
Qed.

Lemma next_rolling_max_covers_draw_time_witness :
  (0 <= 93 <= 100 /\ 0 <= 3000000 /\ 0 <= 5000000
   /\ 100 * Z.max 3000000 5000000 < U64.modulus
   /\ 0 <= 2000000 <= 16666666 / 2
   /\ 16666666 < U64.modulus)
  /\ Predictor.next_rolling_max 93 3000000 5000000 2000000 16666666
     = Z.min (Predictor.rolling_update 93 3000000 5000000) (16666666 / 2 - 2000000).
Proof.
  assert (H1 : 0 <= 93 <= 100) by lia.
  assert (H2 : 0 <= 3000000) by lia.
  assert (H3 : 0 <= 5000000) by lia.
  assert (H4 : 100 * Z.max 3000000 5000000 < U64.modulus) by reflexivity.
  assert (H5 : 0 <= 2000000 <= 16666666 / 2) by closed_comparison.
  assert (H6 : 16666666 < U64.modulus) by reflexivity.
  split; [repeat split; try assumption; apply H1 || apply H5 |].
  exact (proj1 (next_rolling_max_covers_draw_time 93 3000000 5000000 2000000 16666666
                  H1 H2 H3 H4 H5 H6)).
Defined.

(** ** Successive wake times *)

(** X18.  Reading the clock one refresh interval later moves the wake time
    by exactly one refresh interval: for one and the same reported vblank and
    offset the predicted vblanks are one interval apart. *)
Theorem wake_time_shifts_with_now (fuel fuel' : nat)
    (g_lastVblank offset nsecInterval now targetPoint targetPoint' : Z) :
  0 <= offset <= g_lastVblank ->
  g_lastVblank < U64.modulus ->
  0 < nsecInterval ->
  g_lastVblank - offset < now ->
  now + 2 * nsecInterval <= U64.modulus ->
  Predictor.wake_time fuel g_lastVblank offset nsecInterval now = Done targetPoint ->
  Predictor.wake_time fuel' g_lastVblank offset nsecInterval (now + nsecInterval)
  = Done targetPoint' ->
  targetPoint' = targetPoint + nsecInterval.
Proof.
  intros Hoff HG HI Hpast Hroom Hwake Hwake'.
  unfold Predictor.wake_time in Hwake, Hwake'.
  rewrite (U64Facts.sub_small g_lastVblank offset) in Hwake, Hwake' by lia.
  rewrite (U64Facts.add_small (g_lastVblank - offset) nsecInterval) in Hwake, Hwake'
    by lia.
  assert (H0 : 0 <= nsecInterval) by lia.
  assert (Hhi : now + nsecInterval - 1 < U64.modulus) by lia.
  assert (Hle : now + nsecInterval - 1 <= now + nsecInterval - 1) by lia.
  assert (Hstart : 0 <= g_lastVblank - offset + nsecInterval <= now + nsecInterval - 1)
    by lia.
  destruct (advance_window fuel nsecInterval now (now + nsecInterval - 1)
              H0 Hhi Hle _ _ Hstart Hwake) as [Hr [j [Hj Hrj]]].
  assert (Hhi' : now + nsecInterval + nsecInterval - 1 < U64.modulus) by lia.
  assert (Hle' : now + nsecInterval + nsecInterval - 1
                 <= now + nsecInterval + nsecInterval - 1) by lia.
  assert (Hstart' : 0 <= g_lastVblank - offset + nsecInterval
                    <= now + nsecInterval + nsecInterval - 1) by lia.
  destruct (advance_window fuel' nsecInterval (now + nsecInterval)
              (now + nsecInterval + nsecInterval - 1)
              H0 Hhi' Hle' _ _ Hstart' Hwake') as [Hr' [j' [Hj' Hrj']]].
  assert (Hup : j' - 1 <= j).
  { assert (Hlt : (j' - 1) * nsecInterval < (j + 1) * nsecInterval) by lia.
    apply Z.mul_lt_mono_pos_r in Hlt; lia. }
  assert (Hdown : j <= j' - 1).
  { assert (Hlt : j * nsecInterval < j' * nsecInterval) by lia.
    apply Z.mul_lt_mono_pos_r in Hlt; lia. }
  assert (j' = j + 1) by lia. subst j'. lia.
Qed.

Lemma wake_time_shifts_with_now_witness :
  (0 <= 5000000 <= 2000000000 /\ 2000000000 < U64.modulus /\ 0 < 16666666
   /\ 2000000000 - 5000000 < 2030000000
   /\ 2030000000 + 2 * 16666666 <= U64.modulus
   /\ Predictor.wake_time 3 2000000000 5000000 16666666 2030000000 = Done 2044999998
   /\ Predictor.wake_time 4 2000000000 5000000 16666666 (2030000000 + 16666666)
      = Done 2061666664)
  /\ 2061666664 = 2044999998 + 16666666.
Proof.
  assert (H1 : 0 <= 5000000 <= 2000000000) by lia.
  assert (H2 : 2000000000 < U64.modulus) by reflexivity.
  assert (H3 : 0 < 16666666) by lia.
  assert (H4 : 2000000000 - 5000000 < 2030000000) by lia.
  assert (H5 : 2030000000 + 2 * 16666666 <= U64.modulus) by closed_comparison.
  assert (H6 : Predictor.wake_time 3 2000000000 5000000 16666666 2030000000
               = Done 2044999998) by reflexivity.
  assert (H7 : Predictor.wake_time 4 2000000000 5000000 16666666 (2030000000 + 16666666)
               = Done 2061666664) by reflexivity.
  split; [repeat split; try assumption; apply H1 |].
  exact (wake_time_shifts_with_now 3 4 2000000000 5000000 16666666 2030000000
           2044999998 2061666664 H1 H2 H3 H4 H5 H6 H7).
Defined.
